(** * TfL cycling-data scraper: filename heuristics, range filter, downloader

    A shallow embedding of [file-scrapper-selenium.py].  The pure parts
    ([extract_file_number], [filter_files_by_range], the link loop of
    [get_all_filenames]) become functions; [download_file] and the download
    loop of [main] run in a state-and-exception monad over an explicit model
    of the file system, the HTTP server and the console; [setup_driver] and
    [get_all_filenames] run over a model of the browser, and [main] over a
    session made of the browser, that world and the lines typed at its
    prompts.

    Python [str] values are [string]s of one-byte characters (code points
    below 256; file names are URL path segments); on these the regex class
    [\d] is [0-9].  Python [int] is unbounded and is modelled by [Z]; the
    interpreter's limit on the length of a numeral given to [int] is not
    modelled. *)

From Stdlib Require Import List ZArith Lia Ascii String Bool Sorted.
From Equations Require Import Equations.
From stdpp Require Import gmap strings list fin_maps.
Import ListNotations.

Local Open Scope Z_scope.

(** ** Python string primitives used by the script *)

Module Str.

Definition chars (s : string) : list ascii := list_ascii_of_string s.
Definition str (l : list ascii) : string := string_of_list_ascii l.

Definition code (c : ascii) : nat := nat_of_ascii c.

(** [\d]: below code point 256 the decimal digits are [0-9]. *)
Definition is_digit (c : ascii) : bool :=
  ((48 <=? code c) && (code c <=? 57))%nat.

(** [[a-zA-Z]]. *)
Definition is_alpha (c : ascii) : bool :=
  ((97 <=? code c) && (code c <=? 122) || (65 <=? code c) && (code c <=? 90))%nat.

(** Whitespace removed by [str.strip()] with no argument: the characters
    below code point 256 for which [str.isspace] holds. *)
Definition is_space (c : ascii) : bool :=
  ((9 <=? code c) && (code c <=? 13) || (28 <=? code c) && (code c <=? 32)
   || (code c =? 133) || (code c =? 160))%nat.

Definition digit_val (c : ascii) : Z := Z.of_nat (code c) - 48.

(** [int(s)] for a string of decimal digits. *)
Definition int (ds : list ascii) : Z :=
  fold_left (fun acc c => 10 * acc + digit_val c) ds 0.

(** The greedy [\d+] at the head of a string, and what follows it. *)
Fixpoint take_digits (s : list ascii) : list ascii :=
  match s with
  | c :: t => if is_digit c then c :: take_digits t else []
  | [] => []
  end.

Fixpoint drop_digits (s : list ascii) : list ascii :=
  match s with
  | c :: t => if is_digit c then drop_digits t else s
  | [] => []
  end.

(** [s.endswith(suffix)]. *)
Definition endswith (s suffix : list ascii) : bool :=
  bool_decide (drop (length s - length suffix) s = suffix).

(** [s.split(sep)] for a one-character separator: never empty. *)
Fixpoint split (sep : ascii) (s : list ascii) : list (list ascii) :=
  match s with
  | [] => [[]]
  | c :: t =>
      if bool_decide (c = sep) then [] :: split sep t
      else match split sep t with
           | seg :: segs => (c :: seg) :: segs
           | [] => [[c]]
           end
  end.

(** [l[-1]] on a list of strings. *)
Definition last_item (l : list (list ascii)) : list ascii := List.last l [].

Fixpoint lstrip (s : list ascii) : list ascii :=
  match s with
  | c :: t => if is_space c then lstrip t else s
  | [] => []
  end.

Definition strip (s : list ascii) : list ascii :=
  rev (lstrip (rev (lstrip s))).

End Str.
Import Str.

(** ** Sequence inference: [extract_file_number] *)

(** [re.search(r'^(\d+)[a-zA-Z]', filename)]: group 1 of the match, if any.
    The anchor pins the match to position 0; a letter is not a digit, so the
    only way to match is with the whole leading digit run as group 1. *)
Definition search_leading (s : list ascii) : option (list ascii) :=
  match take_digits s, drop_digits s with
  | d :: ds, c :: _ => if is_alpha c then Some (d :: ds) else None
  | _, _ => None
  end.

(** [re.findall(r'\d+', filename)]: at each position try the greedy [\d+];
    on a match emit it and resume after it, otherwise move one character on. *)
Equations? findall_digits (s : list ascii) : list (list ascii) by wf (length s) lt :=
  findall_digits [] := [];
  findall_digits (c :: t) with is_digit c => {
    | true := (c :: take_digits t) :: findall_digits (drop_digits t);
    | false := findall_digits t }.
Proof.
  all: simpl.
  all: assert (forall u, (length (drop_digits u) <= length u)%nat) as Hdrop
         by (induction u as [|d u IHu]; simpl; [|destruct (is_digit d); simpl];
             lia).
  all: specialize (Hdrop t); lia.
Qed.

(** The [for num in numbers] loop of pattern 2. *)
Fixpoint first_in_range (numbers : list (list ascii)) : option Z :=
  match numbers with
  | [] => None
  | num :: rest =>
      let num_int := int num in
      if (1 <=? num_int) && (num_int <=? 1000) then Some num_int
      else first_in_range rest
  end.

Definition extract_file_number (filename : string) : option Z :=
  match search_leading (chars filename) with
  | Some group1 => Some (int group1)
  | None => first_in_range (findall_digits (chars filename))
  end.

(** ** Range filter and sorter: [filter_files_by_range] *)

(** The dictionaries built by [get_all_filenames]; the key ['file_number']
    is absent until the filter attaches it. *)
Record file_info : Type := FileInfo {
  filename : string;
  url : string;
  text : string;
  file_number : option Z
}.

Definition set_file_number (fi : file_info) (n : Z) : file_info :=
  {| filename := filename fi; url := url fi; text := text fi;
     file_number := Some n |}.

(** [file_num and start_num <= file_num <= end_num]: [None] and [0] are
    both falsy, so the chained comparison is only reached for a non-zero
    number. *)
Definition selected (file_num : option Z) (start_num end_num : Z) : bool :=
  match file_num with
  | None => false
  | Some n => negb (n =? 0) && ((start_num <=? n) && (n <=? end_num))
  end.

(** One iteration of the [for file_info in csv_files] loop. *)
Definition filter_step (start_num end_num : Z)
    (filtered_files : list file_info) (fi : file_info) : list file_info :=
  let file_num := extract_file_number (filename fi) in
  if selected file_num start_num end_num
  then filtered_files ++ [set_file_number fi (default 0 file_num)]
  else filtered_files.

Definition filter_loop (csv_files : list file_info) (start_num end_num : Z)
    : list file_info :=
  fold_left (filter_step start_num end_num) csv_files [].

(** [lambda x: x.get('file_number', 0)]. *)
Definition sort_key (x : file_info) : Z := default 0 (file_number x).

(** [list.sort(key=...)] is a stable ascending sort; it is modelled by a
    stable insertion sort: an element is placed before the first element
    whose key is not smaller, and elements are inserted from the last to
    the first. *)
Fixpoint insert_by_key {A} (key : A -> Z) (x : A) (l : list A) : list A :=
  match l with
  | [] => [x]
  | y :: t => if key x <=? key y then x :: y :: t
              else y :: insert_by_key key x t
  end.

Definition sort_by_key {A} (key : A -> Z) (l : list A) : list A :=
  fold_right (insert_by_key key) [] l.

Definition default_start_num : Z := 246.
Definition default_end_num : Z := 386.

Definition filter_files_by_range (csv_files : list file_info)
    (start_num end_num : Z) : list file_info :=
  sort_by_key sort_key (filter_loop csv_files start_num end_num).

(** ** Link extractor: the anchor loop of [get_all_filenames] *)

Inductive exn : Type :=
| WebDriverException
| OSError (path : string)
| RequestException (target : string).

(** A [WebElement] as the loop sees it: reading the attribute or the text
    either raises or returns; [get_attribute] may return [None]. *)
Record web_element : Type := WebElement {
  get_attribute_href : exn + option string;
  element_text : exn + string
}.

(** An anchor that is read without error. *)
Definition anchor (href : option string) (txt : string) : web_element :=
  {| get_attribute_href := inr href; element_text := inr txt |}.

Definition dot_csv : list ascii := chars ".csv".
Definition slash : ascii := "/"%char.

(** One iteration of [for link in links], with its [try]/[except: continue]. *)
Definition link_step (csv_files : list file_info) (link : web_element)
    : list file_info :=
  match get_attribute_href link with
  | inl _ => csv_files
  | inr href =>
      match element_text link with
      | inl _ => csv_files
      | inr t =>
          let text := str (strip (chars t)) in
          match href with
          | Some h =>
              if negb (String.eqb h "") && endswith (chars h) dot_csv
              then csv_files ++
                     [ {| filename := str (last_item (split slash (chars h)));
                          url := h; text := text; file_number := None |} ]
              else csv_files
          | None => csv_files
          end
      end
  end.

Definition extract_links (links : list web_element) : list file_info :=
  fold_left link_step links [].

(** [get_all_filenames] around the loop: [None] when [setup_driver] gives
    no driver, an exception when loading the page or waiting for the first
    anchor raises, otherwise the anchors found on the page. *)
Definition get_all_filenames (page : option (exn + list web_element))
    : list file_info :=
  match page with
  | None => []
  | Some (inl _) => []
  | Some (inr links) => extract_links links
  end.

(** ** Downloader: [download_file] and the download loop of [main] *)

Record response : Type := Response {
  status_code : Z;
  content : list Byte.byte
}.

(** The five [print] lines of [download_file] and the progress line of
    [main]. *)
Inductive message : Type :=
| AlreadyExists (filename : string)
| Downloading (filename : string)
| Downloaded (filename : string) (file_size : nat)
| Failed (filename : string) (status : Z)
| ErrorDownloading (filename : string) (e : exn)
| Progress (i n : nat).

(** The world outside the script: regular files with their bytes,
    directories, which paths may be created, what the server answers to a
    GET, and the observations made so far (requests sent, lines printed,
    seconds slept). *)
Record World : Type := mkWorld {
  files : gmap string (list Byte.byte);
  dirs : gset string;
  can_create : string -> bool;
  server : string -> exn + response;
  requests : list (string * Z);
  console : list message;
  slept : Z
}.

Inductive result (A : Type) : Type :=
| Returned (a : A)
| Raised (e : exn).
Arguments Returned {A} a.
Arguments Raised {A} e.

(** State and exceptions. *)
Definition M (A : Type) : Type := World -> result A * World.

Definition ret {A} (a : A) : M A := fun w => (Returned a, w).
Definition raise {A} (e : exn) : M A := fun w => (Raised e, w).
Definition bind {A B} (m : M A) (k : A -> M B) : M B :=
  fun w => match m w with
           | (Returned a, w') => k a w'
           | (Raised e, w') => (Raised e, w')
           end.
Definition try_except {A} (body : M A) (handler : exn -> M A) : M A :=
  fun w => match body w with
           | (Returned a, w') => (Returned a, w')
           | (Raised e, w') => handler e w'
           end.

Notation "x <- m ;; k" := (bind m (fun x => k))
  (at level 100, m at next level, right associativity).
Notation "m ;;; k" := (bind m (fun _ => k))
  (at level 100, right associativity).

Definition set_dirs (d : gset string) (w : World) : World :=
  mkWorld (files w) d (can_create w) (server w) (requests w) (console w) (slept w).
Definition set_files (f : gmap string (list Byte.byte)) (w : World) : World :=
  mkWorld f (dirs w) (can_create w) (server w) (requests w) (console w) (slept w).
Definition log_request (r : string * Z) (w : World) : World :=
  mkWorld (files w) (dirs w) (can_create w) (server w) (requests w ++ [r]) (console w) (slept w).
Definition log_line (m : message) (w : World) : World :=
  mkWorld (files w) (dirs w) (can_create w) (server w) (requests w) (console w ++ [m]) (slept w).
Definition add_slept (s : Z) (w : World) : World :=
  mkWorld (files w) (dirs w) (can_create w) (server w) (requests w) (console w) (slept w + s).

Definition print (m : message) : M unit :=
  fun w => (Returned tt, log_line m w).

(** [os.makedirs(d, exist_ok=True)]: nothing to do for an existing
    directory; otherwise the directory is created, which fails when the
    path is a regular file or may not be created. *)
Definition os_makedirs (d : string) : M unit :=
  fun w =>
    if bool_decide (d ∈ dirs w) then (Returned tt, w)
    else if bool_decide (d ∈ dom (files w)) || negb (can_create w d)
         then (Raised (OSError d), w)
         else (Returned tt, set_dirs ({[d]} ∪ dirs w) w).

(** [os.path.join(a, p)] on POSIX. *)
Definition os_path_join (a p : string) : string :=
  match chars p with
  | "/"%char :: _ => p
  | _ => if String.eqb a "" || endswith (chars a) [slash]
         then (a +:+ p)%string
         else (a +:+ "/" +:+ p)%string
  end.

Definition os_path_exists (p : string) : M bool :=
  fun w => (Returned (bool_decide (p ∈ dom (files w)) || bool_decide (p ∈ dirs w)), w).

(** [requests.get(url, timeout=30)]. *)
Definition requests_get (u : string) (timeout : Z) : M response :=
  fun w =>
    let w' := log_request (u, timeout) w in
    match server w u with
    | inl e => (Raised e, w')
    | inr r => (Returned r, w')
    end.

(** [with open(p, 'wb') as f: f.write(data)]. *)
Definition write_file (p : string) (data : list Byte.byte) : M unit :=
  fun w =>
    if bool_decide (p ∈ dirs w)
       || (negb (bool_decide (p ∈ dom (files w))) && negb (can_create w p))
    then (Raised (OSError p), w)
    else (Returned tt, set_files (<[p := data]> (files w)) w).

Definition time_sleep (s : Z) : M unit :=
  fun w => (Returned tt, add_slept s w).

Definition default_download_dir : string := "cycling_data".

Definition download_file (fi : file_info) (download_dir : string) : M bool :=
  let filename := filename fi in
  let url := url fi in
  try_except
    (os_makedirs download_dir ;;;
     let file_path := os_path_join download_dir filename in
     found <- os_path_exists file_path ;;
     if found then
       print (AlreadyExists filename) ;;;
       ret true
     else
       print (Downloading filename) ;;;
       resp <- requests_get url 30 ;;
       if status_code resp =? 200 then
         write_file file_path (content resp) ;;;
         let file_size := length (content resp) in
         print (Downloaded filename file_size) ;;;
         ret true
       else
         print (Failed filename (status_code resp)) ;;;
         ret false)
    (fun e =>
       print (ErrorDownloading filename e) ;;;
       ret false).

(** The download loop of [main]: [successful] and [failed] are its two
    counters, [i] the running index of [enumerate(filtered_files, 1)]. *)
Fixpoint download_loop (todo : list file_info) (i n : nat)
    (successful failed : Z) : M (Z * Z) :=
  match todo with
  | [] => ret (successful, failed)
  | fi :: rest =>
      print (Progress i n) ;;;
      ok <- download_file fi default_download_dir ;;
      let successful' := if ok : bool then successful + 1 else successful in
      let failed' := if ok : bool then failed else failed + 1 in
      time_sleep 1 ;;;
      download_loop rest (S i) n successful' failed'
  end.

Definition download_all (filtered_files : list file_info) : M (Z * Z) :=
  download_loop filtered_files 1 (length filtered_files) 0 0.

(** * Specification-side notions

    What the claims talk about, stated independently of the code. *)

(** ** Digit runs and their values *)

Definition digits (l : list ascii) : Prop := Forall (fun c => is_digit c = true) l.

(** The value of a decimal numeral, digit by digit with its weight. *)
Fixpoint decimal (ds : list ascii) : Z :=
  match ds with
  | [] => 0
  | c :: t => digit_val c * 10 ^ Z.of_nat (length t) + decimal t
  end.

(** The file name matches [^\d+[A-Za-z]]. *)
Definition LeadingDigitsThenLetter (s : list ascii) : Prop :=
  exists ds c rest,
    s = ds ++ c :: rest /\ ds <> [] /\ digits ds /\ is_alpha c = true.

Definition ends_nondigit (pre : list ascii) : Prop :=
  forall p c, pre = p ++ [c] -> is_digit c = false.
Definition starts_nondigit (post : list ascii) : Prop :=
  forall c q, post = c :: q -> is_digit c = false.

(** [r] is a maximal run of digits of [s], found between [pre] and [post]. *)
Definition MaxDigitRun (s pre r post : list ascii) : Prop :=
  s = pre ++ r ++ post /\ r <> [] /\ digits r /\
  ends_nondigit pre /\ starts_nondigit post.

Definition in_file_range (n : Z) : Prop := 1 <= n <= 1000.

(** [n] is the value of the leftmost maximal digit run with a value in
    [1, 1000]. *)
Definition LeftmostRunInRange (s : list ascii) (n : Z) : Prop :=
  exists pre r post,
    MaxDigitRun s pre r post /\ decimal r = n /\ in_file_range n /\
    forall pre' r' post',
      MaxDigitRun s pre' r' post' -> (length pre' < length pre)%nat ->
      ~ in_file_range (decimal r').

Definition NoRunInRange (s : list ascii) : Prop :=
  forall pre r post, MaxDigitRun s pre r post -> ~ in_file_range (decimal r).

(** What the scan of pattern 2 finds. *)
Definition scan_result (s : list ascii) : Prop :=
  match first_in_range (findall_digits s) with
  | Some n => LeftmostRunInRange s n
  | None => NoRunInRange s
  end.

(** ** Records kept by the filter *)

(** The range test of the loop on a record, and the record it appends. *)
Definition passes (start_num end_num : Z) (fi : file_info) : bool :=
  selected (extract_file_number (filename fi)) start_num end_num.

Definition attach (fi : file_info) : file_info :=
  set_file_number fi (default 0 (extract_file_number (filename fi))).

(** The records that pass, in the order of the input, number attached. *)
Definition survivors (csv_files : list file_info) (start_num end_num : Z)
    : list file_info :=
  map attach (List.filter (passes start_num end_num) csv_files).

(** A record as the filter leaves it: its attached number is the one
    inferred from its name, is not zero and lies in the range. *)
Definition numbered_in (start_num end_num : Z) (fi : file_info) : Prop :=
  exists n, file_number fi = Some n /\
            extract_file_number (filename fi) = Some n /\
            n <> 0 /\ start_num <= n <= end_num.

Definition with_key (k : Z) (fi : file_info) : bool := sort_key fi =? k.

(** Each number is greater than all the numbers before it. *)
Definition strictly_ascending (l : list Z) : Prop := StronglySorted Z.lt l.

(** ** Anchors and extracted records *)

(** [s] ends with [suffix]. *)
Definition EndsWith (s suffix : list ascii) : Prop := exists pre, s = pre ++ suffix.

(** [seg] is the text of [s] after its last [sep] (all of [s] if there is
    none). *)
Definition FinalSegment (sep : ascii) (s seg : list ascii) : Prop :=
  ~ In sep seg /\ (s = seg \/ exists pre, s = pre ++ sep :: seg).

(** [sep.join(l)]. *)
Fixpoint join (sep : ascii) (l : list (list ascii)) : list ascii :=
  match l with
  | [] => []
  | [x] => x
  | x :: rest => x ++ sep :: join sep rest
  end.

(** An anchor as data: its [href] (possibly missing) and its text. *)
Definition anchor_data : Type := option string * string.

Definition as_element (a : anchor_data) : web_element := anchor (fst a) (snd a).

(** The anchor is to be kept: its href is present, non-empty and ends
    with [.csv], character for character. *)
Definition Kept (a : anchor_data) : Prop :=
  exists h, fst a = Some h /\ h <> ""%string /\ EndsWith (chars h) dot_csv.

(** The record made from a kept anchor. *)
Definition RecordOf (a : anchor_data) (fi : file_info) : Prop :=
  exists h, fst a = Some h /\ url fi = h /\
            FinalSegment slash (chars h) (chars (filename fi)).

(** The records extracted from a list of anchors, in page order. *)
Inductive Extracted : list anchor_data -> list file_info -> Prop :=
| Extracted_nil : Extracted [] []
| Extracted_keep a anchors fi recs :
    Kept a -> RecordOf a fi -> Extracted anchors recs ->
    Extracted (a :: anchors) (fi :: recs)
| Extracted_skip a anchors recs :
    ~ Kept a -> Extracted anchors recs -> Extracted (a :: anchors) recs.

(** ** Outcomes of a download *)

(** The contract of the downloader in the words of its specification:
    three outcomes, with the reason of a failure.  It performs the steps
    of [download_file] and differs only in what it returns. *)
Inductive failure_reason : Type :=
| HttpStatus (status : Z)
| TransportError (e : exn).

Inductive outcome : Type :=
| Success (byte_count : nat)
| Skipped
| Failure (reason : failure_reason).

Definition download_contract (fi : file_info) (target_directory : string)
    : M outcome :=
  try_except
    (os_makedirs target_directory ;;;
     let target_path := os_path_join target_directory (filename fi) in
     found <- os_path_exists target_path ;;
     if found then
       print (AlreadyExists (filename fi)) ;;;
       ret Skipped
     else
       print (Downloading (filename fi)) ;;;
       resp <- requests_get (url fi) 30 ;;
       if status_code resp =? 200 then
         write_file target_path (content resp) ;;;
         print (Downloaded (filename fi) (length (content resp))) ;;;
         ret (Success (length (content resp)))
       else
         print (Failed (filename fi) (status_code resp)) ;;;
         ret (Failure (HttpStatus (status_code resp))))
    (fun e =>
       print (ErrorDownloading (filename fi) e) ;;;
       ret (Failure (TransportError e))).

(** What a boolean return value keeps of an outcome. *)
Definition reported (o : outcome) : bool :=
  match o with
  | Failure _ => false
  | _ => true
  end.

Inductive outcome_kind : Type := KSuccess | KSkipped | KFailure.

Definition kind (o : outcome) : outcome_kind :=
  match o with
  | Success _ => KSuccess
  | Skipped => KSkipped
  | Failure _ => KFailure
  end.

Definition map_result {A B} (f : A -> B) (r : result A) : result B :=
  match r with
  | Returned a => Returned (f a)
  | Raised e => Raised e
  end.

(** A file named [name] with bytes [data] is present in directory [d]:
    the directory exists and the joined path is a regular file. *)
Definition file_present (w : World) (d name : string) (data : list Byte.byte)
    : Prop :=
  d ∈ dirs w /\ files w !! os_path_join d name = Some data.

(** ** Sample records and worlds *)

(** A record as [get_all_filenames] builds it on the listing site. *)
Definition listed (name : string) : file_info :=
  {| filename := name;
     url := ("https://cycling.data.tfl.gov.uk/" +:+ name)%string;
     text := name; file_number := None |}.

(** A world in which [246a.csv] was downloaded before, and one in which the
    download directory is still empty; the server answers every GET with
    status 200 and a one-byte body. *)
Definition always_ok (u : string) : exn + response :=
  inr {| status_code := 200; content := [Byte.x41] |}.

Definition world_with_file : World :=
  {| files := {[ "cycling_data/246a.csv"%string := [Byte.x42; Byte.x43] ]};
     dirs := {[ "cycling_data"%string ]};
     can_create := fun _ => true;
     server := always_ok;
     requests := []; console := []; slept := 0 |}.

Definition world_without_file : World :=
  {| files := ∅;
     dirs := {[ "cycling_data"%string ]};
     can_create := fun _ => true;
     server := always_ok;
     requests := []; console := []; slept := 0 |}.

(** ** Records of the listing *)

(** A record as the link loop builds it: its file name ends with [.csv]
    and holds no [/], its url ends with its file name, and it carries no
    number yet. *)
Definition csv_record (fi : file_info) : Prop :=
  EndsWith (chars (filename fi)) dot_csv /\
  ~ In slash (chars (filename fi)) /\
  EndsWith (chars (url fi)) (chars (filename fi)) /\
  file_number fi = None.

(** ** States of the download directory *)


(** [os.path.exists] holds for the target of [name] inside the existing
    directory [d]. *)
Definition target_exists (w : World) (d name : string) : Prop :=
  (d ∈ dirs w) /\
  ((os_path_join d name ∈ dom (files w)) \/ (os_path_join d name ∈ dirs w)).


(** ** Page renderer: [setup_driver] and [get_all_filenames] *)

(** What [setup_driver] puts into [Options()]. *)
Record chrome_options : Type := ChromeOptions {
  arguments : list string;
  exclude_switches : list string;
  use_automation_extension : bool
}.

(** The [print] lines of [setup_driver] and [get_all_filenames]. *)
Inductive scrape_line : Type :=
| ErrorSettingUp (e : exn)
| MakeSureChromeDriver
| InstallWith
| LoadingSite
| WaitingContent
| WaitingFileList
| FoundLinks (n : nat)
| FoundCsvFiles (n : nat)
| ErrorScraping (e : exn).

(** The browser as the script drives it: how each call on the driver
    ends, and what has been done so far (browsers started with their
    options, scripts run, pages loaded, calls of [quit], lines printed,
    seconds slept). *)
Record Browser : Type := mkBrowser {
  chrome_start : exn + unit;
  script_run : exn + unit;
  page_get : string -> exn + unit;
  wait_anchor : Z -> exn + unit;
  page_links : exn + list web_element;
  quit_result : exn + unit;
  launched : list chrome_options;
  scripts : list string;
  visited : list string;
  quit_calls : nat;
  screen : list scrape_line;
  paused : Z
}.

Module Scraper.

Definition B (A : Type) : Type := Browser -> result A * Browser.

Definition ret {A} (a : A) : B A := fun b => (Returned a, b).
Definition bind {A C} (m : B A) (k : A -> B C) : B C :=
  fun b => match m b with
           | (Returned a, b') => k a b'
           | (Raised e, b') => (Raised e, b')
           end.
Definition try_except {A} (body : B A) (handler : exn -> B A) : B A :=
  fun b => match body b with
           | (Returned a, b') => (Returned a, b')
           | (Raised e, b') => handler e b'
           end.
(** [try: body finally: cleanup]: the cleanup runs on every way out of the
    body, and an exception of the cleanup replaces the outcome of the
    body. *)
Definition try_finally {A} (body : B A) (cleanup : B unit) : B A :=
  fun b => match body b with
           | (r, b') =>
               match cleanup b' with
               | (Returned _, b'') => (r, b'')
               | (Raised e, b'') => (Raised e, b'')
               end
           end.

Notation "x <~ m ;; k" := (bind m (fun x => k))
  (at level 100, m at next level, right associativity).
Notation "m ;;~ k" := (bind m (fun _ => k))
  (at level 100, right associativity).

Definition of_outcome {A} (o : exn + A) (b : Browser) : result A * Browser :=
  match o with
  | inl e => (Raised e, b)
  | inr a => (Returned a, b)
  end.

Definition print (l : scrape_line) : B unit :=
  fun b => (Returned tt,
            mkBrowser (chrome_start b) (script_run b) (page_get b)
              (wait_anchor b) (page_links b) (quit_result b) (launched b)
              (scripts b) (visited b) (quit_calls b) (screen b ++ [l])
              (paused b)).

(** [webdriver.Chrome(options=chrome_options)]. *)
Definition webdriver_Chrome (o : chrome_options) : B unit :=
  fun b =>
    match chrome_start b with
    | inl e => (Raised e, b)
    | inr _ =>
        (Returned tt,
         mkBrowser (chrome_start b) (script_run b) (page_get b)
           (wait_anchor b) (page_links b) (quit_result b)
           (launched b ++ [o]) (scripts b) (visited b) (quit_calls b)
           (screen b) (paused b))
    end.

(** [driver.execute_script(js)]. *)
Definition execute_script (js : string) : B unit :=
  fun b =>
    of_outcome (script_run b)
      (mkBrowser (chrome_start b) (script_run b) (page_get b)
         (wait_anchor b) (page_links b) (quit_result b) (launched b)
         (scripts b ++ [js]) (visited b) (quit_calls b) (screen b)
         (paused b)).

(** [driver.get(url)]. *)
Definition driver_get (u : string) : B unit :=
  fun b =>
    of_outcome (page_get b u)
      (mkBrowser (chrome_start b) (script_run b) (page_get b)
         (wait_anchor b) (page_links b) (quit_result b) (launched b)
         (scripts b) (visited b ++ [u]) (quit_calls b) (screen b)
         (paused b)).

(** [WebDriverWait(driver, timeout).until(presence of an anchor)]. *)
Definition wait_until_anchor (timeout : Z) : B unit :=
  fun b => of_outcome (wait_anchor b timeout) b.

(** [time.sleep(s)]. *)
Definition sleep (s : Z) : B unit :=
  fun b => (Returned tt,
            mkBrowser (chrome_start b) (script_run b) (page_get b)
              (wait_anchor b) (page_links b) (quit_result b) (launched b)
              (scripts b) (visited b) (quit_calls b) (screen b)
              (paused b + s)).

(** [driver.find_elements(By.TAG_NAME, "a")]. *)
Definition find_anchors : B (list web_element) :=
  fun b => of_outcome (page_links b) b.

(** [driver.quit()]. *)
Definition driver_quit : B unit :=
  fun b =>
    of_outcome (quit_result b)
      (mkBrowser (chrome_start b) (script_run b) (page_get b)
         (wait_anchor b) (page_links b) (quit_result b) (launched b)
         (scripts b) (visited b) (S (quit_calls b)) (screen b) (paused b)).

Definition hide_webdriver : string :=
  "Object.defineProperty(navigator, 'webdriver', {get: () => undefined})".

Definition the_chrome_options : chrome_options :=
  {| arguments := ["--headless"; "--no-sandbox"; "--disable-dev-shm-usage";
                   "--disable-blink-features=AutomationControlled"]%string;
     exclude_switches := ["enable-automation"%string];
     use_automation_extension := false |}.

(** The driver is the one browser of the state; [setup_driver] returns
    whether there is one. *)
Definition setup_driver : B bool :=
  let chrome_options := the_chrome_options in
  try_except
    (webdriver_Chrome chrome_options ;;~
     execute_script hide_webdriver ;;~
     ret true)
    (fun e =>
       print (ErrorSettingUp e) ;;~
       print MakeSureChromeDriver ;;~
       print InstallWith ;;~
       ret false).

Definition default_url : string := "https://cycling.data.tfl.gov.uk/".

Definition get_all_filenames (u : string) : B (list file_info) :=
  driver <~ setup_driver ;;
  if negb driver then ret []
  else
    try_finally
      (try_except
         (print LoadingSite ;;~
          driver_get u ;;~
          print WaitingContent ;;~
          wait_until_anchor 60 ;;~
          print WaitingFileList ;;~
          sleep 10 ;;~
          links <~ find_anchors ;;
          print (FoundLinks (length links)) ;;~
          let csv_files := extract_links links in
          print (FoundCsvFiles (length csv_files)) ;;~
          ret csv_files)
         (fun e =>
            print (ErrorScraping e) ;;~
            ret []))
      driver_quit.

End Scraper.

(** What the page gives when every call on the driver does what the
    browser state says: no driver, an exception while loading, or the
    anchors. *)
Definition page_of (b : Browser) (u : string)
    : option (exn + list web_element) :=
  match chrome_start b, script_run b with
  | inr _, inr _ =>
      Some match page_get b u with
           | inl e => inl e
           | inr _ =>
               match wait_anchor b 60 with
               | inl e => inl e
               | inr _ => page_links b
               end
           end
  | _, _ => None
  end.

(** [setup_driver] hands a driver to its caller. *)
Definition driver_obtained (b : Browser) : Prop :=
  (exists u, chrome_start b = inr u) /\ (exists u, script_run b = inr u).

(** ** Orchestrator: [main] *)

(** [int(s)] for a string typed at the prompt: optional whitespace around
    an optional sign and decimal digits, which single underscores may
    separate.  The whitespace is what the conversion accepts below code
    point 256: tab to carriage return, space, and the two non-ASCII
    spaces. *)
Definition int_space (c : ascii) : bool :=
  ((9 <=? code c) && (code c <=? 13) || (code c =? 32)
   || (code c =? 133) || (code c =? 160))%nat.

Definition underscore : ascii := "_"%char.

(** Digits with single underscores between them, as [int] reads them
    after the sign; [after_digit] tells whether the character before was
    a digit. *)
Fixpoint grouped_digits (after_digit : bool) (s : list ascii) : bool :=
  match s with
  | [] => after_digit
  | c :: t =>
      if is_digit c then grouped_digits true t
      else if bool_decide (c = underscore)
           then after_digit && match t with
                               | d :: _ => is_digit d
                               | [] => false
                               end && grouped_digits false t
           else false
  end.

Fixpoint skip_spaces (s : list ascii) : list ascii :=
  match s with
  | c :: t => if int_space c then skip_spaces t else s
  | [] => []
  end.

Definition py_int (s : string) : option Z :=
  let t := skip_spaces (chars s) in
  let body := rev (skip_spaces (rev t)) in
  let '(negative, literal) :=
    match body with
    | "-"%char :: r => (true, r)
    | "+"%char :: r => (false, r)
    | _ => (false, body)
    end in
  if grouped_digits false literal
  then let n := int (List.filter is_digit literal) in
       Some (if negative then - n else n)
  else None.

(** [str.lower()] on one character below code point 256. *)
Definition lower_char (c : ascii) : ascii :=
  if ((65 <=? code c) && (code c <=? 90)
      || (192 <=? code c) && (code c <=? 222) && negb (code c =? 215))%nat
  then ascii_of_nat (code c + 32) else c.

Definition lower (s : list ascii) : list ascii := map lower_char s.

(** The lines [main] and [filter_files_by_range] write to the terminal,
    the prompts of [input] included. *)
Inductive main_line : Type :=
| Banner
| Rule
| Step1
| NoCsvFilesFound
| Step2 (total : nat)
| AllFilesFound
| ListedFile (i : nat) (name : string) (number : option Z)
| PromptStart
| PromptEnd
| Analyzing (start_num end_num : Z)
| SampleHeader
| Sample (name : string) (number : option Z)
| Filtering (start_num end_num : Z)
| FoundInRange (n : nat) (start_num end_num : Z)
| NoFilesInRange (start_num end_num : Z)
| AdjustHint
| FilesToDownload (n : nat)
| ToDownload (number : option Z) (name : string)
| PromptConfirm (n : nat)
| DownloadCancelled
| Step6 (n : nat)
| DownloadComplete
| SuccessfulCount (n : Z)
| FailedCount (n : Z)
| SavedTo.

(** What [filter_files_by_range] prints around its loop: the first ten
    names with their numbers, then the count of the records kept. *)
Definition filter_lines (csv_files : list file_info) (start_num end_num : Z)
    : list main_line :=
  [Analyzing start_num end_num; SampleHeader]
  ++ map (fun fi => Sample (filename fi) (extract_file_number (filename fi)))
       (take 10 csv_files)
  ++ [Filtering start_num end_num;
      FoundInRange (length (filter_files_by_range csv_files start_num end_num))
        start_num end_num].

(** Exceptions that end [main]: none of them is caught. *)
Inductive main_exn : Type :=
| EOFError
| ValueError (literal : string)
| Uncaught (e : exn).

Inductive main_result (A : Type) : Type :=
| Done (a : A)
| Crashed (e : main_exn).
Arguments Done {A} a.
Arguments Crashed {A} e.

(** A run of the script: the browser, the world of the downloader, the
    lines waiting on standard input and the lines written by [main]. *)
Record Session : Type := mkSession {
  browser : Browser;
  world : World;
  stdin : list string;
  terminal : list main_line
}.

Module Main.

Definition Run (A : Type) : Type := Session -> main_result A * Session.

Definition ret {A} (a : A) : Run A := fun s => (Done a, s).
Definition bind {A C} (m : Run A) (k : A -> Run C) : Run C :=
  fun s => match m s with
           | (Done a, s') => k a s'
           | (Crashed e, s') => (Crashed e, s')
           end.

Notation "x <~ m ;; k" := (bind m (fun x => k))
  (at level 100, m at next level, right associativity).
Notation "m ;;~ k" := (bind m (fun _ => k))
  (at level 100, right associativity).

Definition print (l : main_line) : Run unit :=
  fun s => (Done tt,
            mkSession (browser s) (world s) (stdin s) (terminal s ++ [l])).

Definition print_all (ls : list main_line) : Run unit :=
  fun s => (Done tt,
            mkSession (browser s) (world s) (stdin s) (terminal s ++ ls)).

(** [input(prompt)]: the prompt is written, then a line is read. *)
Definition input (prompt : main_line) : Run string :=
  fun s =>
    let s' := mkSession (browser s) (world s) (stdin s) (terminal s ++ [prompt]) in
    match stdin s with
    | [] => (Crashed EOFError, s')
    | line :: rest =>
        (Done line,
         mkSession (browser s) (world s) rest (terminal s ++ [prompt]))
    end.

(** [int(answer or default)]. *)
Definition int_or (answer default : string) : Run Z :=
  fun s =>
    let literal := if String.eqb answer "" then default else answer in
    match py_int literal with
    | Some n => (Done n, s)
    | None => (Crashed (ValueError literal), s)
    end.

Definition in_browser {A} (m : Scraper.B A) : Run A :=
  fun s =>
    match m (browser s) with
    | (Returned a, b') => (Done a, mkSession b' (world s) (stdin s) (terminal s))
    | (Raised e, b') =>
        (Crashed (Uncaught e), mkSession b' (world s) (stdin s) (terminal s))
    end.

Definition in_world {A} (m : M A) : Run A :=
  fun s =>
    match m (world s) with
    | (Returned a, w') => (Done a, mkSession (browser s) w' (stdin s) (terminal s))
    | (Raised e, w') =>
        (Crashed (Uncaught e), mkSession (browser s) w' (stdin s) (terminal s))
    end.

(** The lines of [for i, file_info in enumerate(csv_files, 1)]. *)
Fixpoint listing (i : nat) (csv_files : list file_info) : list main_line :=
  match csv_files with
  | [] => []
  | fi :: rest =>
      ListedFile i (filename fi) (extract_file_number (filename fi))
      :: listing (S i) rest
  end.

Definition is_empty {A} (l : list A) : bool :=
  match l with [] => true | _ => false end.

Definition main : Run unit :=
  print Banner ;;~
  print Rule ;;~
  print Step1 ;;~
  csv_files <~ in_browser (Scraper.get_all_filenames Scraper.default_url) ;;
  if is_empty csv_files then
    print NoCsvFilesFound
  else
    print (Step2 (length csv_files)) ;;~
    print AllFilesFound ;;~
    print_all (listing 1 csv_files) ;;~
    a <~ input PromptStart ;;
    start_range <~ int_or a "246" ;;
    b <~ input PromptEnd ;;
    end_range <~ int_or b "386" ;;
    print_all (filter_lines csv_files start_range end_range) ;;~
    let filtered_files := filter_files_by_range csv_files start_range end_range in
    if is_empty filtered_files then
      print (NoFilesInRange start_range end_range) ;;~
      print AdjustHint
    else
      print (FilesToDownload (length filtered_files)) ;;~
      print_all (map (fun fi => ToDownload (file_number fi) (filename fi))
                   filtered_files) ;;~
      c <~ input (PromptConfirm (length filtered_files)) ;;
      let confirm := str (strip (lower (chars c))) in
      if negb (String.eqb confirm "y") then
        print DownloadCancelled
      else
        print (Step6 (length filtered_files)) ;;~
        counts <~ in_world (download_all filtered_files) ;;
        print Rule ;;~
        print DownloadComplete ;;~
        print (SuccessfulCount (fst counts)) ;;~
        print (FailedCount (snd counts)) ;;~
        print SavedTo.

End Main.

(** The third line typed is a yes: lowercased and stripped it is [y]. *)
Definition says_yes (line : string) : Prop :=
  str (strip (lower (chars line))) = "y"%string.

(** The session can reach the download loop: anchors were scraped, two
    range answers and a yes are waiting on standard input. *)
Definition confirmed (s : Session) : Prop :=
  exists a b c rest, stdin s = a :: b :: c :: rest /\ says_yes c.

(** [answer or default]. *)
Definition answer_or (answer default : string) : string :=
  if String.eqb answer "" then default else answer.

Definition with_stdin (lines : list string) (s : Session) : Session :=
  mkSession (browser s) (world s) lines (terminal s).



(** A browser on which every call succeeds and the page shows [links];
    one on which no anchor appears before the wait times out. *)
Definition browser_ok (links : list web_element) : Browser :=
  {| chrome_start := inr tt; script_run := inr tt;
     page_get := fun _ => inr tt; wait_anchor := fun _ => inr tt;
     page_links := inr links; quit_result := inr tt;
     launched := []; scripts := []; visited := []; quit_calls := 0;
     screen := []; paused := 0 |}.

Definition browser_times_out : Browser :=
  {| chrome_start := inr tt; script_run := inr tt;
     page_get := fun _ => inr tt;
     wait_anchor := fun _ => inl WebDriverException;
     page_links := inr []; quit_result := inr tt;
     launched := []; scripts := []; visited := []; quit_calls := 0;
     screen := []; paused := 0 |}.

(** A run on a listing of two files with an empty download directory
    and the given lines typed at the prompts. *)
Definition session_with_answers (lines : list string) : Session :=
  {| browser :=
       browser_ok
         [anchor (Some "https://cycling.data.tfl.gov.uk/246a.csv") "246a.csv";
          anchor (Some "https://cycling.data.tfl.gov.uk/300b.csv") "300b.csv"];
     world := world_without_file;
     stdin := lines;
     terminal := [] |}.

(** * Proofs *)

(** ** Digit runs *)

Lemma drop_digits_length s : (length (drop_digits s) <= length s)%nat.
Proof.
  induction s as [|c t IH]; simpl; [lia|].
  destruct (is_digit c); simpl; lia.
Qed.

Lemma chars_str l : chars (str l) = l.
Proof. apply list_ascii_of_string_of_list_ascii. Qed.

Lemma str_chars s : str (chars s) = s.
Proof. apply string_of_list_ascii_of_string. Qed.

Lemma alpha_not_digit c : is_alpha c = true -> is_digit c = false.
Proof.
  unfold is_alpha, is_digit. generalize (code c). intros n H.
  apply andb_false_iff.
  apply orb_true_iff in H as [H|H]; apply andb_true_iff in H as [H1 H2];
    apply Nat.leb_le in H1, H2; right; apply Nat.leb_gt; lia.
Qed.

Lemma int_acc ds acc :
  fold_left (fun a c => 10 * a + digit_val c) ds acc
  = acc * 10 ^ Z.of_nat (length ds) + decimal ds.
Proof.
  revert acc. induction ds as [|c t IH]; intros acc; simpl fold_left.
  - simpl. lia.
  - rewrite IH. cbn [decimal length].
    rewrite Nat2Z.inj_succ, Z.pow_succ_r by lia. ring.
Qed.

Lemma int_decimal ds : int ds = decimal ds.
Proof. unfold int. rewrite int_acc. lia. Qed.

Lemma take_drop_digits s : take_digits s ++ drop_digits s = s.
Proof.
  induction s as [|c t IH]; simpl; [done|].
  destruct (is_digit c); simpl; [by rewrite IH | done].
Qed.

Lemma take_digits_digits s : digits (take_digits s).
Proof.
  induction s as [|c t IH]; simpl; [constructor|].
  destruct (is_digit c) eqn:E; constructor; done.
Qed.

Lemma drop_digits_starts s : starts_nondigit (drop_digits s).
Proof.
  induction s as [|c t IH]; simpl; [by intros ? ? ?|].
  destruct (is_digit c) eqn:E; [done|].
  intros c' q [= <- _]. done.
Qed.

(** A string splits in one way only into digits followed by something that
    does not start with a digit. *)
Lemma digit_split ds rest :
  digits ds -> starts_nondigit rest ->
  take_digits (ds ++ rest) = ds /\ drop_digits (ds ++ rest) = rest.
Proof.
  intros Hd Hr. induction Hd as [|c t Hc _ IH]; simpl.
  - destruct rest as [|c q]; [done|].
    simpl. rewrite (Hr c q eq_refl). done.
  - rewrite Hc. destruct IH as [-> ->]. done.
Qed.

Lemma search_leading_spec s g :
  search_leading s = Some g <->
  exists c rest, s = g ++ c :: rest /\ g <> [] /\ digits g /\ is_alpha c = true.
Proof.
  unfold search_leading. split.
  - pose proof (take_drop_digits s) as Hs.
    pose proof (take_digits_digits s) as Hd.
    destruct (take_digits s) as [|d ds]; [done|].
    destruct (drop_digits s) as [|c rest]; [done|].
    destruct (is_alpha c) eqn:Ha; [|done].
    intros [= <-]. exists c, rest. done.
  - intros (c & rest & -> & Hne & Hd & Ha).
    destruct (digit_split g (c :: rest) Hd) as [-> ->].
    { intros c' q [= <- _]. by apply alpha_not_digit. }
    destruct g; [done|]. by rewrite Ha.
Qed.

Lemma search_leading_None s :
  search_leading s = None <-> ~ LeadingDigitsThenLetter s.
Proof.
  split.
  - intros HN (ds & c & rest & Hs & Hne & Hd & Ha).
    assert (search_leading s = Some ds) as HS
      by (apply search_leading_spec; exists c, rest; done).
    congruence.
  - intros Hn. destruct (search_leading s) as [g|] eqn:E; [|done].
    exfalso. apply Hn. apply search_leading_spec in E as (c & rest & ?).
    exists g, c, rest. done.
Qed.

(** The equation [extract_file_number] follows when pattern 1 matches. *)
Lemma extract_leading filename ds c rest :
  chars filename = ds ++ c :: rest -> ds <> [] -> digits ds ->
  is_alpha c = true ->
  extract_file_number filename = Some (decimal ds).
Proof.
  intros Hs Hne Hd Ha. unfold extract_file_number.
  assert (search_leading (chars filename) = Some ds) as ->
    by (apply search_leading_spec; exists c, rest; done).
  by rewrite int_decimal.
Qed.

(** ** Maximal digit runs of a string, along the scan of [findall_digits] *)

Lemma ends_nondigit_nil : ends_nondigit [].
Proof. intros p c H. by destruct p. Qed.

Lemma ends_nondigit_tail c pre : ends_nondigit (c :: pre) -> ends_nondigit pre.
Proof. intros H p x ->. by apply (H (c :: p) x). Qed.

Lemma ends_nondigit_cons c pre :
  is_digit c = false -> ends_nondigit pre -> ends_nondigit (c :: pre).
Proof.
  intros Hc H p x Heq. destruct p as [|y p]; simpl in Heq.
  - by injection Heq as <- _.
  - injection Heq as _ ->. by apply (H p x).
Qed.

Lemma ends_nondigit_app_inv l pre : ends_nondigit (l ++ pre) -> ends_nondigit pre.
Proof. intros H p x ->. apply (H (l ++ p) x). by rewrite app_assoc. Qed.

Lemma ends_nondigit_app l pre :
  pre <> [] -> ends_nondigit pre -> ends_nondigit (l ++ pre).
Proof.
  intros Hne H p x Heq.
  destruct (exists_last Hne) as (p' & x' & ->).
  rewrite app_assoc in Heq. apply app_inj_tail in Heq as [_ ->].
  by apply (H p' x).
Qed.

Lemma max_run_nonempty_pre s pre r post :
  starts_nondigit s -> MaxDigitRun s pre r post -> pre <> [].
Proof.
  intros Hs (-> & Hne & Hd & _ & _) ->. simpl in Hs.
  destruct r as [|d r]; [done|].
  inversion Hd as [|? ? Hdig _]; subst.
  rewrite (Hs d (r ++ post) eq_refl) in Hdig. done.
Qed.

Lemma max_run_nondigit c t pre r post :
  is_digit c = false ->
  MaxDigitRun (c :: t) pre r post <->
  exists pre', pre = c :: pre' /\ MaxDigitRun t pre' r post.
Proof.
  intros Hc. split.
  - intros HM.
    assert (pre <> []) as Hpre.
    { eapply max_run_nonempty_pre; [|exact HM]. by intros ? ? [= <- _]. }
    destruct HM as (Hs & Hne & Hd & He & Hp).
    destruct pre as [|c' pre']; [done|].
    simpl in Hs. injection Hs as <- ->.
    exists pre'. repeat split; try done. by eapply ends_nondigit_tail.
  - intros (pre' & -> & -> & Hne & Hd & He & Hp).
    repeat split; try done. by apply ends_nondigit_cons.
Qed.

(** A prefix that ends outside the digits reaches past a leading block of
    digits. *)
Lemma prefix_past_block r0 : forall pre x rest,
  digits r0 -> pre <> [] -> ends_nondigit pre ->
  pre ++ x = r0 ++ rest -> exists pre', pre = r0 ++ pre'.
Proof.
  induction r0 as [|d r0 IH]; intros pre x rest Hd Hne He Heq.
  - by exists pre.
  - destruct pre as [|c pre]; [done|].
    simpl in Heq. injection Heq as -> Heq.
    inversion Hd as [|? ? Hdig Hd']; subst.
    assert (pre <> []) as Hne'.
    { intros ->. by rewrite (He [] d eq_refl) in Hdig. }
    destruct (IH pre x rest Hd' Hne' (ends_nondigit_tail _ _ He) Heq)
      as (pre' & ->).
    by exists pre'.
Qed.

Lemma max_run_block r0 rest pre r post :
  r0 <> [] -> digits r0 -> starts_nondigit rest ->
  MaxDigitRun (r0 ++ rest) pre r post <->
  (pre = [] /\ r = r0 /\ post = rest) \/
  (exists pre', pre = r0 ++ pre' /\ MaxDigitRun rest pre' r post).
Proof.
  intros Hne0 Hd0 Hrest. split.
  - intros (Hs & Hne & Hd & He & Hp).
    destruct pre as [|c pre'].
    + left. simpl in Hs.
      destruct (digit_split r0 rest Hd0 Hrest) as [Ht Hdr].
      destruct (digit_split r post Hd Hp) as [Ht' Hdr'].
      rewrite <- Hs in Ht', Hdr'. split; [done|]. split; congruence.
    + right.
      destruct (prefix_past_block r0 (c :: pre') (r ++ post) rest)
        as (pre'' & Hpre); try done.
      exists pre''. split; [done|].
      rewrite Hpre, <- app_assoc in Hs. apply app_inv_head in Hs.
      repeat split; try done.
      rewrite Hpre in He. by eapply ends_nondigit_app_inv.
  - intros [(-> & -> & ->)|(pre' & -> & HM)].
    + repeat split; try done. apply ends_nondigit_nil.
    + pose proof (max_run_nonempty_pre _ _ _ _ Hrest HM) as Hpre.
      destruct HM as (-> & Hne & Hd & He & Hp).
      repeat split; try done.
      * by rewrite <- app_assoc.
      * by apply ends_nondigit_app.
Qed.

Lemma in_file_range_test n :
  (1 <=? n) && (n <=? 1000) = true <-> in_file_range n.
Proof. unfold in_file_range. rewrite andb_true_iff, !Z.leb_le. done. Qed.

Lemma leftmost_intro s pre r post n :
  MaxDigitRun s pre r post -> decimal r = n -> in_file_range n ->
  (forall pre' r' post',
     MaxDigitRun s pre' r' post' -> (length pre' < length pre)%nat ->
     ~ in_file_range (decimal r')) ->
  LeftmostRunInRange s n.
Proof. intros. exists pre, r, post. done. Qed.

Lemma scan_correct_bounded (k : nat) :
  forall s, (length s <= k)%nat -> scan_result s.
Proof.
  induction k as [|k IH]; intros s Hlen.
  - destruct s; [|simpl in Hlen; lia].
    unfold scan_result. simp findall_digits. simpl.
    intros pre r post (Hs & Hne & _).
    destruct pre; [|done]. destruct r; done.
  - destruct s as [|c t].
    { apply IH. simpl. lia. }
    unfold scan_result. simp findall_digits.
    destruct (is_digit c) eqn:Hc; simpl.
    + (* a run starts here *)
      pose proof (take_drop_digits t) as Ht.
      pose proof (take_digits_digits t) as Hd.
      pose proof (drop_digits_starts t) as Hr.
      set (r0 := c :: take_digits t) in *.
      assert (c :: t = r0 ++ drop_digits t) as Hs
        by (unfold r0; simpl; by rewrite Ht).
      assert (digits r0) as Hd0 by (by constructor).
      assert (r0 <> []) as Hne0 by done.
      assert (scan_result (drop_digits t)) as HIH.
      { apply IH. pose proof (drop_digits_length t). simpl in Hlen. lia. }
      rewrite Hs. rewrite int_decimal.
      destruct ((1 <=? decimal r0) && (decimal r0 <=? 1000)) eqn:Hrange.
      * apply in_file_range_test in Hrange.
        apply (leftmost_intro _ [] r0 (drop_digits t)); try done.
        -- apply max_run_block; try done. by left.
        -- simpl. lia.
      * assert (~ in_file_range (decimal r0)) as Hout.
        { rewrite <- in_file_range_test. by rewrite Hrange. }
        unfold scan_result in HIH.
        destruct (first_in_range (findall_digits (drop_digits t))) as [n|].
        -- destruct HIH as (pre & r & post & HM & Hv & Hin & Hmin).
           apply (leftmost_intro _ (r0 ++ pre) r post); try done.
           ++ apply max_run_block; try done. right. by exists pre.
           ++ intros pre' r' post' HM' Hlt.
              apply max_run_block in HM'; try done.
              destruct HM' as [(-> & -> & ->)|(pre'' & -> & HM')]; [done|].
              apply (Hmin pre'' r' post' HM').
              rewrite !length_app in Hlt. lia.
        -- intros pre r post HM.
           apply max_run_block in HM; try done.
           destruct HM as [(-> & -> & ->)|(pre'' & -> & HM)]; [done|].
           by apply (HIH pre'' r post).
    + (* no run starts here *)
      assert (scan_result t) as HIH by (apply IH; simpl in Hlen; lia).
      unfold scan_result in HIH.
      destruct (first_in_range (findall_digits t)) as [n|].
      * destruct HIH as (pre & r & post & HM & Hv & Hin & Hmin).
        apply (leftmost_intro _ (c :: pre) r post); try done.
        -- apply max_run_nondigit; [done|]. by exists pre.
        -- intros pre' r' post' HM' Hlt.
           apply max_run_nondigit in HM' as (pre'' & -> & HM'); [|done].
           apply (Hmin pre'' r' post' HM'). simpl in Hlt. lia.
      * intros pre r post HM.
        apply max_run_nondigit in HM as (pre'' & -> & HM); [|done].
        by apply (HIH pre'' r post).
Qed.

Lemma scan_correct s : scan_result s.
Proof. by apply (scan_correct_bounded (length s)). Qed.

(** Two maximal runs that start at the same place are the same run. *)
Lemma max_run_same_start s pre r post pre' r' post' :
  MaxDigitRun s pre r post -> MaxDigitRun s pre' r' post' ->
  length pre = length pre' -> r = r'.
Proof.
  intros (Hs & _ & Hd & _ & Hp) (Hs' & _ & Hd' & _ & Hp') Hlen.
  rewrite Hs in Hs'. apply app_inj_1 in Hs' as [_ Heq]; [|done].
  destruct (digit_split r post Hd Hp) as [Ht _].
  destruct (digit_split r' post' Hd' Hp') as [Ht' _].
  congruence.
Qed.

Lemma leftmost_unique s n m :
  LeftmostRunInRange s n -> LeftmostRunInRange s m -> n = m.
Proof.
  intros (pre & r & post & HM & Hv & Hin & Hmin)
         (pre' & r' & post' & HM' & Hv' & Hin' & Hmin').
  destruct (Nat.lt_trichotomy (length pre) (length pre')) as [Hlt|[Heq|Hgt]].
  - exfalso. apply (Hmin' pre r post HM Hlt). by rewrite Hv.
  - rewrite <- Hv, <- Hv'. f_equal. by eapply max_run_same_start.
  - exfalso. apply (Hmin pre' r' post' HM' Hgt). by rewrite Hv'.
Qed.

Lemma leftmost_not_none s n : LeftmostRunInRange s n -> ~ NoRunInRange s.
Proof.
  intros (pre & r & post & HM & Hv & Hin & _) HN.
  apply (HN pre r post HM). by rewrite Hv.
Qed.

Lemma first_in_range_iff s n :
  first_in_range (findall_digits s) = Some n <-> LeftmostRunInRange s n.
Proof.
  pose proof (scan_correct s) as H. unfold scan_result in H. split.
  - intros E. by rewrite E in H.
  - intros HL. destruct (first_in_range (findall_digits s)) as [m|].
    + f_equal. by eapply leftmost_unique.
    + by apply leftmost_not_none in HL.
Qed.

Lemma first_in_range_none_iff s :
  first_in_range (findall_digits s) = None <-> NoRunInRange s.
Proof.
  pose proof (scan_correct s) as H. unfold scan_result in H. split.
  - intros E. by rewrite E in H.
  - intros HN. destruct (first_in_range (findall_digits s)) as [m|]; [|done].
    by apply leftmost_not_none in H.
Qed.

(** ** The filter loop and the sort *)

Lemma selected_iff file_num s e :
  selected file_num s e = true <->
  exists n, file_num = Some n /\ n <> 0 /\ s <= n <= e.
Proof.
  unfold selected. destruct file_num as [n|].
  - rewrite !andb_true_iff, negb_true_iff, Z.eqb_neq, !Z.leb_le. split.
    + intros (? & ? & ?). exists n. done.
    + intros (m & [= <-] & ? & ? & ?). done.
  - split; [done|]. by intros (n & ? & _).
Qed.

Lemma filter_loop_acc s e csv acc :
  fold_left (filter_step s e) csv acc = acc ++ survivors csv s e.
Proof.
  revert acc. induction csv as [|fi rest IH]; intros acc; simpl.
  - by rewrite app_nil_r.
  - rewrite IH. unfold filter_step, survivors, passes. simpl.
    destruct (selected _ s e); simpl; [|done].
    by rewrite <- app_assoc.
Qed.

Lemma filter_loop_survivors csv s e : filter_loop csv s e = survivors csv s e.
Proof. unfold filter_loop. by rewrite filter_loop_acc. Qed.

Lemma survivors_numbered csv s e : Forall (numbered_in s e) (survivors csv s e).
Proof.
  unfold survivors. apply Forall_map, List.Forall_forall. intros fi Hin.
  apply filter_In in Hin as [_ Hp]. unfold passes in Hp.
  apply selected_iff in Hp as (n & Hn & Hz & Hr).
  exists n. unfold attach. simpl. rewrite Hn. done.
Qed.

Section Sort.
Context {A : Type} (key : A -> Z).

Lemma insert_by_key_perm x l : Permutation (insert_by_key key x l) (x :: l).
Proof.
  induction l as [|y t IH]; simpl; [done|].
  destruct (key x <=? key y); [done|].
  rewrite IH. apply perm_swap.
Qed.

Lemma sort_by_key_perm l : Permutation (sort_by_key key l) l.
Proof.
  induction l as [|x t IH]; simpl; [done|].
  rewrite insert_by_key_perm. by constructor.
Qed.

Lemma insert_by_key_sorted x l :
  StronglySorted Z.le (map key l) ->
  StronglySorted Z.le (map key (insert_by_key key x l)).
Proof.
  induction l as [|y t IH]; simpl; intros Hs.
  - repeat constructor.
  - inversion Hs as [|? ? Hs' Hall]; subst.
    destruct (key x <=? key y) eqn:E; simpl.
    + apply Z.leb_le in E. constructor; [done|].
      constructor; [done|].
      eapply List.Forall_impl; [|exact Hall]. simpl. intros. lia.
    + apply Z.leb_gt in E. constructor; [by apply IH|].
      rewrite (Permutation_map key (insert_by_key_perm x t)). simpl.
      constructor; [lia|done].
Qed.

Lemma sort_by_key_sorted l : StronglySorted Z.le (map key (sort_by_key key l)).
Proof.
  induction l as [|x t IH]; simpl; [constructor|].
  by apply insert_by_key_sorted.
Qed.

(** Stability: insertion does not move [x] past an element with its key. *)
Lemma insert_by_key_filter k x l :
  StronglySorted Z.le (map key l) ->
  List.filter (fun y => key y =? k) (insert_by_key key x l)
  = List.filter (fun y => key y =? k) (x :: l).
Proof.
  induction l as [|y t IH]; intros Hs; [done|].
  simpl in Hs. inversion Hs as [|? ? Hs' Hall]; subst.
  cbn [insert_by_key]. destruct (key x <=? key y) eqn:E; [done|].
  apply Z.leb_gt in E.
  cbn [List.filter]. rewrite (IH Hs'). cbn [List.filter].
  destruct (key x =? k) eqn:Ex; [|done].
  destruct (key y =? k) eqn:Ey; [|done].
  apply Z.eqb_eq in Ex, Ey. lia.
Qed.

Lemma sort_by_key_filter k l :
  List.filter (fun y => key y =? k) (sort_by_key key l)
  = List.filter (fun y => key y =? k) l.
Proof.
  induction l as [|x t IH]; [done|].
  cbn [sort_by_key fold_right].
  rewrite insert_by_key_filter by apply sort_by_key_sorted.
  cbn [List.filter]. fold (sort_by_key key t). by rewrite IH.
Qed.

(** Sorting a sorted list changes nothing. *)
Lemma sort_by_key_sorted_id l :
  StronglySorted Z.le (map key l) -> sort_by_key key l = l.
Proof.
  induction l as [|x t IH]; intros Hs; [done|].
  simpl in Hs. inversion Hs as [|? ? Hs' Hall]; subst.
  cbn [sort_by_key fold_right]. fold (sort_by_key key t).
  rewrite (IH Hs'). destruct t as [|y t']; [done|].
  cbn [insert_by_key]. inversion Hall as [|? ? Hle _]; subst.
  apply Z.leb_le in Hle. by rewrite Hle.
Qed.

Lemma sort_by_key_Forall (P : A -> Prop) l :
  Forall P l -> Forall P (sort_by_key key l).
Proof. intros H. by rewrite sort_by_key_perm. Qed.

End Sort.

Lemma sorted_nodup_strict (l : list Z) :
  StronglySorted Z.le l -> NoDup l -> StronglySorted Z.lt l.
Proof.
  induction 1 as [|x t Hs IH Hall]; intros Hnd; [constructor|].
  apply NoDup_cons in Hnd as [Hnin Hnd].
  constructor; [by apply IH|].
  apply List.Forall_forall. intros y Hy.
  assert (x <= y) by (rewrite List.Forall_forall in Hall; by apply Hall).
  assert (x <> y) by (intros ->; apply Hnin; by apply list_elem_of_In).
  lia.
Qed.

Lemma filter_files_numbered csv s e :
  Forall (numbered_in s e) (filter_files_by_range csv s e).
Proof.
  unfold filter_files_by_range. apply sort_by_key_Forall.
  rewrite filter_loop_survivors. apply survivors_numbered.
Qed.

Lemma attach_numbered s e fi : numbered_in s e fi -> attach fi = fi.
Proof.
  intros (n & Hn & He & _). unfold attach, set_file_number.
  rewrite He. simpl. destruct fi. simpl in *. by rewrite Hn.
Qed.

Lemma passes_numbered s e fi : numbered_in s e fi -> passes s e fi = true.
Proof.
  intros (n & Hn & He & Hz & Hr). unfold passes.
  apply selected_iff. exists n. done.
Qed.

Lemma survivors_numbered_id s e l :
  Forall (numbered_in s e) l -> survivors l s e = l.
Proof.
  induction 1 as [|fi t Hfi _ IH]; [done|].
  unfold survivors in *. cbn [List.filter].
  rewrite (passes_numbered s e fi Hfi). cbn [map].
  by rewrite (attach_numbered s e fi Hfi), IH.
Qed.

(** ** The link extractor *)

Lemma endswith_spec s suffix : endswith s suffix = true <-> EndsWith s suffix.
Proof.
  unfold endswith, EndsWith. rewrite bool_decide_eq_true. split.
  - intros H. exists (take (length s - length suffix) s).
    rewrite <- (take_drop (length s - length suffix) s) at 1. by rewrite H.
  - intros (pre & ->). rewrite length_app.
    replace (length pre + length suffix - length suffix)%nat
      with (length pre) by lia.
    by rewrite drop_app_length.
Qed.

Lemma suffix_case_matters s :
  EndsWith s (chars ".CSV") -> ~ EndsWith s dot_csv.
Proof.
  intros (pre & ->) (pre' & H).
  apply app_inj_2 in H as [_ H]; [|done]. discriminate H.
Qed.

Lemma split_nonempty sep s : split sep s <> [].
Proof.
  destruct s as [|c t]; simpl; [done|].
  destruct (bool_decide (c = sep)); [done|].
  by destruct (split sep t).
Qed.

Lemma join_cons2 sep x y l :
  join sep (x :: y :: l) = x ++ sep :: join sep (y :: l).
Proof. reflexivity. Qed.

Lemma join_split sep s : join sep (split sep s) = s.
Proof.
  induction s as [|c t IH]; [done|]. simpl.
  pose proof (split_nonempty sep t) as Hne.
  destruct (bool_decide (c = sep)) eqn:E.
  - apply bool_decide_eq_true in E as ->.
    destruct (split sep t) as [|seg segs]; [done|].
    by rewrite join_cons2, IH.
  - destruct (split sep t) as [|seg segs]; [done|].
    destruct segs as [|y l].
    + simpl in *. by rewrite IH.
    + rewrite join_cons2 in IH. rewrite join_cons2, <- IH. done.
Qed.

Lemma split_no_sep sep s : Forall (fun seg => ~ In sep seg) (split sep s).
Proof.
  induction s as [|c t IH]; simpl.
  { constructor; [by intros []|constructor]. }
  destruct (bool_decide (c = sep)) eqn:E.
  - constructor; [by intros []|done].
  - apply bool_decide_eq_false in E.
    destruct (split sep t) as [|seg segs].
    { constructor; [by intros [|[]]|constructor]. }
    inversion IH as [|? ? Hseg Hsegs]; subst.
    constructor; [|done]. intros [Hc|Hin]; [by symmetry in Hc|done].
Qed.

Lemma join_snoc sep init seg :
  join sep (init ++ [seg]) = seg \/
  exists pre, join sep (init ++ [seg]) = pre ++ sep :: seg.
Proof.
  induction init as [|x init IH]; [by left|]. right.
  simpl app.
  destruct (init ++ [seg]) as [|y l] eqn:E; [by destruct init|].
  rewrite join_cons2.
  destruct IH as [IH|(pre & IH)].
  - exists x. by rewrite IH.
  - exists (x ++ sep :: pre). rewrite IH. by rewrite <- app_assoc.
Qed.

Lemma last_segment sep s : FinalSegment sep s (last_item (split sep s)).
Proof.
  pose proof (split_nonempty sep s) as Hne.
  pose proof (join_split sep s) as Hj.
  pose proof (split_no_sep sep s) as Hf.
  destruct (exists_last Hne) as (init & seg & E).
  rewrite E in *. unfold last_item. rewrite last_last.
  apply List.Forall_app in Hf as [_ Hf].
  inversion Hf as [|? ? Hseg _]. clear Hf.
  split; [done|]. rewrite <- Hj. apply join_snoc.
Qed.

Lemma link_step_acc acc link : link_step acc link = acc ++ link_step [] link.
Proof.
  unfold link_step.
  destruct (get_attribute_href link) as [|[h|]]; try by rewrite app_nil_r.
  - destruct (element_text link); [by rewrite app_nil_r|].
    destruct (negb (h =? "")%string && endswith (chars h) dot_csv);
      [done | by rewrite app_nil_r].
  - destruct (element_text link); by rewrite app_nil_r.
Qed.

Lemma extract_links_acc links acc :
  fold_left link_step links acc = acc ++ extract_links links.
Proof.
  unfold extract_links. revert acc.
  induction links as [|l links IH]; intros acc; simpl.
  - by rewrite app_nil_r.
  - rewrite (IH (link_step [] l)), IH, link_step_acc. by rewrite app_assoc.
Qed.

Lemma extract_links_cons l links :
  extract_links (l :: links) = link_step [] l ++ extract_links links.
Proof. unfold extract_links at 1. simpl. apply extract_links_acc. Qed.

Lemma extract_links_app l1 l2 :
  extract_links (l1 ++ l2) = extract_links l1 ++ extract_links l2.
Proof.
  induction l1 as [|l l1 IH]; [done|].
  simpl app. by rewrite !extract_links_cons, IH, app_assoc.
Qed.

Lemma kept_test h t :
  negb (h =? "")%string && endswith (chars h) dot_csv = true <-> Kept (Some h, t).
Proof.
  rewrite andb_true_iff, negb_true_iff, String.eqb_neq, endswith_spec.
  unfold Kept. simpl. split.
  - intros [? ?]. by exists h.
  - intros (h' & [= <-] & ? & ?). done.
Qed.

Lemma link_step_anchor a :
  (Kept a /\ exists fi, link_step [] (as_element a) = [fi] /\ RecordOf a fi) \/
  (~ Kept a /\ link_step [] (as_element a) = []).
Proof.
  destruct a as [[h|] t]; unfold link_step, as_element, anchor; simpl.
  - destruct (negb (h =? "")%string && endswith (chars h) dot_csv) eqn:E.
    + left. apply (kept_test h t) in E. split; [done|].
      eexists. split; [done|]. exists h. simpl. repeat split.
      * rewrite chars_str. apply last_segment.
      * rewrite chars_str. apply last_segment.
    + right. split; [|done]. rewrite <- (kept_test h t). by rewrite E.
  - right. split; [|done]. by intros (h & [=] & _).
Qed.

(** ** The downloader *)

Ltac run_download :=
  unfold download_file, download_contract, try_except, bind, ret, print,
    os_makedirs, os_path_exists, requests_get, write_file; simpl.

Lemma download_file_refines fi d w :
  download_file fi d w =
  (map_result reported (fst (download_contract fi d w)),
   snd (download_contract fi d w)).
Proof.
  run_download.
  repeat (case_match; simpl in *; simplify_eq; try done).
Qed.

Lemma download_contract_returns fi d w :
  exists o, fst (download_contract fi d w) = Returned o.
Proof.
  run_download.
  repeat (case_match; simpl in *; simplify_eq; try by eexists).
Qed.

Lemma path_in_dom (w : World) p data :
  files w !! p = Some data -> bool_decide (p ∈ dom (files w)) = true.
Proof. intros H. apply bool_decide_eq_true, elem_of_dom. by exists data. Qed.

Lemma download_contract_skip fi d w data :
  file_present w d (filename fi) data ->
  download_contract fi d w
  = (Returned Skipped, log_line (AlreadyExists (filename fi)) w).
Proof.
  intros [Hd Hf]. run_download.
  rewrite (bool_decide_eq_true_2 _ Hd). simpl.
  by rewrite (path_in_dom _ _ _ Hf).
Qed.

Lemma download_file_skip fi d w data :
  file_present w d (filename fi) data ->
  download_file fi d w
  = (Returned true, log_line (AlreadyExists (filename fi)) w).
Proof.
  intros H. rewrite download_file_refines.
  by rewrite (download_contract_skip fi d w data H).
Qed.

(** Whatever happens to the directory, an existing target is neither
    fetched nor written. *)
Lemma download_file_existing_frame fi d w data :
  files w !! os_path_join d (filename fi) = Some data ->
  requests (snd (download_file fi d w)) = requests w /\
  files (snd (download_file fi d w)) = files w.
Proof.
  intros Hf. run_download.
  destruct (bool_decide (d ∈ dirs w)); simpl.
  - by rewrite (path_in_dom _ _ _ Hf).
  - destruct (bool_decide (d ∈ dom (files w)) || negb (can_create w d)); simpl;
      [done|].
    by rewrite (path_in_dom _ _ _ Hf).
Qed.

(** ** Sequence inference: the claims *)

(** C1.  A file name that begins with one or more digits immediately
    followed by a letter is given the value of that leading digit run:
    whenever [filename = ds ++ c :: rest] with [ds] a non-empty string of
    digits and [c] in [[a-zA-Z]], [extract_file_number filename] is the
    decimal value of [ds]. *)
Theorem extract_file_number_leading_run filename ds c rest :
  chars filename = ds ++ c :: rest -> ds <> [] -> digits ds ->
  is_alpha c = true ->
  extract_file_number filename = Some (decimal ds).
Proof.
  intros Hs Hne Hd Ha. unfold extract_file_number.
  assert (search_leading (chars filename) = Some ds) as Hmatch.
  { apply search_leading_spec. exists c, rest. done. }
  rewrite Hmatch. f_equal. apply int_decimal.
Qed.

Lemma extract_file_number_leading_run_witness :
  chars "246a-journeys.csv" = chars "246" ++ "a"%char :: chars "-journeys.csv" /\
  extract_file_number "246a-journeys.csv" = Some 246.
Proof.
  split; [reflexivity|].
  apply (extract_file_number_leading_run "246a-journeys.csv"
           (chars "246") "a"%char (chars "-journeys.csv")).
  - reflexivity.
  - discriminate.
  - repeat constructor.
  - reflexivity.
Defined.

(** C2.  For a file name that does not begin with digits followed by a
    letter, [extract_file_number] returns [n] exactly when [n] is the value
    of the leftmost maximal digit run whose value lies in [1, 1000], and
    returns [None] exactly when no maximal digit run has a value in that
    range. *)
Theorem extract_file_number_range_scan filename :
  ~ LeadingDigitsThenLetter (chars filename) ->
  (forall n, extract_file_number filename = Some n <->
             LeftmostRunInRange (chars filename) n) /\
  (extract_file_number filename = None <-> NoRunInRange (chars filename)).
Proof.
  intros Hno. apply search_leading_None in Hno.
  unfold extract_file_number. rewrite Hno. split.
  - intros n. apply first_in_range_iff.
  - apply first_in_range_none_iff.
Qed.

Lemma extract_file_number_range_scan_witness :
  (extract_file_number "data-2024-99.csv" = Some 99 /\
   LeftmostRunInRange (chars "data-2024-99.csv") 99) /\
  (extract_file_number "report-1500.csv" = None /\
   NoRunInRange (chars "report-1500.csv")).
Proof.
  split.
  - split; [reflexivity|].
    apply (extract_file_number_range_scan "data-2024-99.csv").
    + apply search_leading_None. reflexivity.
    + reflexivity.
  - split; [reflexivity|].
    apply (extract_file_number_range_scan "report-1500.csv").
    + apply search_leading_None. reflexivity.
    + reflexivity.
Defined.

Lemma first_in_range_bounds numbers n :
  first_in_range numbers = Some n -> in_file_range n.
Proof.
  induction numbers as [|num rest IH]; simpl; [done|].
  destruct ((1 <=? int num) && (int num <=? 1000)) eqn:E; [|done].
  intros [= <-]. by apply in_file_range_test.
Qed.

(** C10.  The leading-digits-then-letter rule has no numeric bound: for a
    file name that begins with digits followed by a letter the value of the
    leading run is returned whatever its size, and when that value exceeds
    1000 the result is not the one the [1, 1000] scan of the digit runs
    gives. *)
Theorem leading_run_has_no_bound filename ds c rest :
  chars filename = ds ++ c :: rest -> ds <> [] -> digits ds ->
  is_alpha c = true ->
  extract_file_number filename = Some (decimal ds) /\
  (1000 < decimal ds ->
   extract_file_number filename
   <> first_in_range (findall_digits (chars filename))).
Proof.
  intros Hs Hne Hd Ha.
  pose proof (extract_leading filename ds c rest Hs Hne Hd Ha) as He.
  split; [done|]. intros Hbig Heq. rewrite He in Heq. symmetry in Heq.
  apply first_in_range_bounds in Heq. unfold in_file_range in Heq. lia.
Qed.

Lemma leading_run_has_no_bound_witness :
  extract_file_number "2024a-15.csv" = Some 2024 /\
  first_in_range (findall_digits (chars "2024a-15.csv")) = Some 15.
Proof.
  split; [|reflexivity].
  apply (leading_run_has_no_bound "2024a-15.csv"
           (chars "2024") "a"%char (chars "-15.csv")).
  - reflexivity.
  - discriminate.
  - repeat constructor.
  - reflexivity.
Defined.

(** ** Range filter and sorter: the claims *)

(** X7.  What the filter keeps: a record is in the output exactly when
    it is an input record whose inferred number is present, is not zero
    and lies in the range, with that number attached. *)
Lemma filter_files_membership csv s e out :
  In out (filter_files_by_range csv s e) <->
  exists fi n, In fi csv /\ extract_file_number (filename fi) = Some n /\
               n <> 0 /\ s <= n <= e /\ out = set_file_number fi n.
Proof.
  unfold filter_files_by_range. rewrite filter_loop_survivors.
  rewrite <- !list_elem_of_In, sort_by_key_perm, list_elem_of_In.
  unfold survivors. rewrite in_map_iff. split.
  - intros (fi & <- & Hin). apply filter_In in Hin as [Hin Hp].
    apply selected_iff in Hp as (n & Hn & Hz & Hr).
    exists fi, n. unfold attach. rewrite Hn. simpl. tauto.
  - intros (fi & n & Hin & Hn & Hz & Hr & ->). exists fi. split.
    + unfold attach. by rewrite Hn.
    + apply filter_In. split; [done|]. apply selected_iff. by exists n.
Qed.

(** C3.  The record named [0a.csv] has inferred number 0, which lies in
    the range [0, 10], and the filter discards it: the truth test on
    [file_num] takes the number 0 for a missing number. *)
Theorem filter_discards_number_zero :
  extract_file_number "0a.csv" = Some 0 /\
  0 <= 0 <= 10 /\
  filter_files_by_range [listed "0a.csv"] 0 10 = [].
Proof. split; [reflexivity|]. split; [lia|reflexivity]. Qed.

(** C4, as stated, fails: two records with the same inferred number are
    both kept, so the output holds the number 246 twice. *)
Lemma equal_numbers_are_both_kept :
  ~ strictly_ascending
      (map sort_key
         (filter_files_by_range [listed "246a-x.csv"; listed "246b-y.csv"]
            246 386)).
Proof.
  assert (map sort_key
            (filter_files_by_range [listed "246a-x.csv"; listed "246b-y.csv"]
               246 386) = [246; 246]) as -> by reflexivity.
  intros H. inversion H as [|? ? _ Hall]. inversion Hall as [|? ? Hlt _]. lia.
Qed.

Lemma distinct_keys s e l :
  NoDup (map (fun fi => extract_file_number (filename fi))
           (List.filter (passes s e) l)) ->
  NoDup (map sort_key (survivors l s e)).
Proof.
  unfold survivors. rewrite map_map.
  assert (Forall (fun fi => passes s e fi = true) (List.filter (passes s e) l))
    as Hall.
  { apply List.Forall_forall. intros fi Hin. by apply filter_In in Hin as [_ ?]. }
  induction Hall as [|fi t Hp Ht IH]; simpl; [constructor|].
  rewrite !NoDup_cons. intros [Hnin Hnd]. split; [|by apply IH].
  intros Hin. apply Hnin.
  apply list_elem_of_In, in_map_iff in Hin as (fj & Hk & Hj).
  apply list_elem_of_In, in_map_iff. exists fj. split; [|done].
  assert (passes s e fj = true) as Hpj.
  { rewrite List.Forall_forall in Ht. by apply Ht. }
  apply selected_iff in Hp as (n & Hn & _).
  apply selected_iff in Hpj as (m & Hm & _).
  unfold sort_key, attach in Hk. simpl in Hk. rewrite Hn, Hm in Hk.
  simpl in Hk. rewrite Hn, Hm. by f_equal.
Qed.

(** C4, amended.  When the records that pass the range test have pairwise
    distinct inferred numbers, the output of [filter_files_by_range] is
    strictly ascending by attached number. *)
Theorem filter_files_strictly_ascending csv s e :
  NoDup (map (fun fi => extract_file_number (filename fi))
           (List.filter (passes s e) csv)) ->
  strictly_ascending (map sort_key (filter_files_by_range csv s e)).
Proof.
  intros Hnd. apply sorted_nodup_strict.
  - apply sort_by_key_sorted.
  - unfold filter_files_by_range. rewrite filter_loop_survivors.
    rewrite (sort_by_key_perm sort_key). by apply distinct_keys.
Qed.

Lemma filter_files_strictly_ascending_witness :
  strictly_ascending
    (map sort_key
       (filter_files_by_range
          [listed "300a-x.csv"; listed "246a-x.csv"; listed "12a-x.csv"]
          246 386)).
Proof.
  apply filter_files_strictly_ascending.
  apply (bool_decide_unpack _). vm_compute. exact I.
Defined.

(** C7.  The output of [filter_files_by_range] is sorted ascending by
    attached number; for every number [k] the output records numbered [k]
    are the input records that pass the range test with inferred number
    [k], in their input order; and every output record carries a number
    within [start_num, end_num]. *)
Theorem filter_files_sorted_stable_in_range csv s e :
  StronglySorted Z.le (map sort_key (filter_files_by_range csv s e)) /\
  (forall k,
     List.filter (with_key k) (filter_files_by_range csv s e)
     = List.filter (with_key k)
         (map attach (List.filter (passes s e) csv))) /\
  Forall (fun fi => exists n, file_number fi = Some n /\ sort_key fi = n /\
                              s <= n <= e)
    (filter_files_by_range csv s e).
Proof.
  split; [apply sort_by_key_sorted|]. split.
  - intros k. unfold filter_files_by_range, with_key.
    by rewrite sort_by_key_filter, filter_loop_survivors.
  - eapply List.Forall_impl; [|apply filter_files_numbered].
    intros fi (n & Hn & _ & _ & Hr). exists n. unfold sort_key.
    by rewrite Hn.
Qed.

(** C8.  [filter_files_by_range] is idempotent: applied to its own output
    with the same range it returns that output. *)
Theorem filter_files_by_range_idempotent csv s e :
  filter_files_by_range (filter_files_by_range csv s e) s e
  = filter_files_by_range csv s e.
Proof.
  set (out := filter_files_by_range csv s e).
  unfold filter_files_by_range at 1. rewrite filter_loop_survivors.
  rewrite (survivors_numbered_id s e out) by apply filter_files_numbered.
  apply sort_by_key_sorted_id, sort_by_key_sorted.
Qed.

(** ** Link extractor: the claim *)

(** C9.  On anchors that are read without error the link loop keeps, in
    page order, exactly the anchors whose href is present, non-empty and
    ends with [.csv]; the record of a kept anchor has the href as its url
    and the text after the last [/] of the href as its file name; an
    anchor whose href ends with [.CSV] adds nothing to the result; and an
    empty list of anchors gives an empty list of records. *)
Theorem link_extractor_keeps_csv_suffix :
  (forall anchors : list anchor_data,
     Extracted anchors (extract_links (map as_element anchors))) /\
  (forall before after h t,
     EndsWith (chars h) (chars ".CSV") ->
     extract_links (before ++ anchor (Some h) t :: after)
     = extract_links before ++ extract_links after) /\
  extract_links [] = [].
Proof.
  split; [|split; [|done]].
  - induction anchors as [|a anchors IH]; [constructor|].
    cbn [map]. rewrite extract_links_cons.
    destruct (link_step_anchor a) as [(Hk & fi & -> & Hrec)|(Hk & ->)].
    + by apply Extracted_keep.
    + by apply Extracted_skip.
  - intros before after h t Hs.
    rewrite extract_links_app, extract_links_cons.
    destruct (link_step_anchor (Some h, t)) as [(Hk & _)|(_ & Hstep)].
    + exfalso. destruct Hk as (h' & [= <-] & _ & Hcsv).
      by apply suffix_case_matters in Hs.
    + unfold as_element in Hstep. simpl in Hstep. by rewrite Hstep.
Qed.

Lemma link_extractor_keeps_csv_suffix_witness :
  extract_links
    [anchor (Some "https://cycling.data.tfl.gov.uk/usage-stats/246a.CSV") "x";
     anchor (Some "https://cycling.data.tfl.gov.uk/usage-stats/247a.csv") "y"]
  = extract_links []
    ++ extract_links
         [anchor (Some "https://cycling.data.tfl.gov.uk/usage-stats/247a.csv") "y"].
Proof.
  apply (proj1 (proj2 link_extractor_keeps_csv_suffix) []).
  exists (chars "https://cycling.data.tfl.gov.uk/usage-stats/246a").
  reflexivity.
Defined.

(** ** Downloader: the claims *)

(** C5.  When a file is present at the target path before the call,
    [download_file] returns [True] after printing the already-exists line,
    sends no HTTP request and leaves every file, the existing one
    included, with the bytes it had. *)
Theorem download_file_skips_existing fi d w data :
  file_present w d (filename fi) data ->
  exists w',
    download_file fi d w = (Returned true, w') /\
    requests w' = requests w /\
    files w' = files w /\
    files w' !! os_path_join d (filename fi) = Some data /\
    console w' = console w ++ [AlreadyExists (filename fi)].
Proof.
  intros H. exists (log_line (AlreadyExists (filename fi)) w).
  split; [by eapply download_file_skip|].
  destruct H as [_ Hf]. done.
Qed.

Lemma download_file_skips_existing_witness :
  exists w',
    download_file (listed "246a.csv") "cycling_data" world_with_file
    = (Returned true, w') /\
    requests w' = [] /\
    files w' = files world_with_file /\
    files w' !! "cycling_data/246a.csv"%string = Some [Byte.x42; Byte.x43] /\
    console w' = [AlreadyExists "246a.csv"].
Proof.
  apply (download_file_skips_existing (listed "246a.csv") "cycling_data"
           world_with_file [Byte.x42; Byte.x43]).
  split.
  - apply (bool_decide_unpack _). vm_compute. exact I.
  - vm_compute. reflexivity.
Defined.

(** C6, as stated, fails: no reading of the returned value tells a skipped
    file from a downloaded one, because [download_file] returns [True] for
    both. *)
Lemma download_file_conflates_skip_and_success :
  ~ exists decode : bool -> outcome_kind,
      forall fi d w, exists b o,
        fst (download_file fi d w) = Returned b /\
        fst (download_contract fi d w) = Returned o /\
        decode b = kind o.
Proof.
  intros (decode & H).
  destruct (H (listed "246a.csv") "cycling_data"%string world_with_file)
    as (b1 & o1 & Hb1 & Ho1 & Hk1).
  destruct (H (listed "246a.csv") "cycling_data"%string world_without_file)
    as (b2 & o2 & Hb2 & Ho2 & Hk2).
  vm_compute in Hb1, Ho1, Hb2, Ho2.
  injection Hb1 as <-. injection Ho1 as <-.
  injection Hb2 as <-. injection Ho2 as <-.
  simpl in Hk1, Hk2. congruence.
Qed.

(** C6, amended.  [download_file] returns a boolean: it performs the steps
    of the three-outcome contract and returns [True] when the outcome is
    Success or Skipped and [False] when it is a Failure, whose reason is
    only printed; the download loop of [main] adds a Skipped file to its
    count of successful downloads. *)
Theorem download_file_reports_boolean fi d w :
  (exists o,
     download_contract fi d w = (Returned o, snd (download_contract fi d w)) /\
     download_file fi d w = (Returned (reported o), snd (download_contract fi d w)) /\
     (reported o = false <-> kind o = KFailure)) /\
  (forall rest i n successful failed,
     exists o w',
       download_contract fi default_download_dir (log_line (Progress i n) w)
       = (Returned o, w') /\
       download_loop (fi :: rest) i n successful failed w
       = download_loop rest (S i) n
           (if reported o then successful + 1 else successful)
           (if reported o then failed else failed + 1)
           (add_slept 1 w')).
Proof.
  split.
  - destruct (download_contract_returns fi d w) as (o & Ho).
    exists o. rewrite download_file_refines, Ho. simpl. split.
    + rewrite <- Ho. by destruct (download_contract fi d w).
    + split; [done|]. by destruct o.
  - intros rest i n successful failed.
    set (w1 := log_line (Progress i n) w).
    destruct (download_contract_returns fi default_download_dir w1) as (o & Ho).
    exists o, (snd (download_contract fi default_download_dir w1)). split.
    + rewrite <- Ho. by destruct (download_contract fi default_download_dir w1).
    + cbn [download_loop]. unfold bind at 1. unfold print at 1. fold w1.
      unfold bind at 1. rewrite download_file_refines, Ho. simpl.
      unfold bind, time_sleep. by destruct (reported o).
Qed.

(** * Further properties of the code *)

(** ** Digit runs found by [findall_digits] *)

Lemma findall_digits_nondigit c t :
  is_digit c = false -> findall_digits (c :: t) = findall_digits t.
Proof. intros Hc. simp findall_digits. by rewrite Hc. Qed.

Lemma findall_digits_digit c t :
  is_digit c = true ->
  findall_digits (c :: t) = (c :: take_digits t) :: findall_digits (drop_digits t).
Proof. intros Hc. simp findall_digits. by rewrite Hc. Qed.

(** Induction along the scan. *)
Lemma findall_digits_scan_ind (P : list ascii -> list (list ascii) -> Prop) :
  P [] [] ->
  (forall c t, is_digit c = false ->
     P t (findall_digits t) -> P (c :: t) (findall_digits t)) ->
  (forall c t, is_digit c = true ->
     P (drop_digits t) (findall_digits (drop_digits t)) ->
     P (c :: t) ((c :: take_digits t) :: findall_digits (drop_digits t))) ->
  forall s, P s (findall_digits s).
Proof.
  intros Hnil Hskip Hrun s.
  assert (forall k s, (length s <= k)%nat -> P s (findall_digits s)) as H.
  { induction k as [|k IH]; intros [|c t] Hlen; simpl in Hlen;
      try (simp findall_digits; done); try lia.
    destruct (is_digit c) eqn:Hc.
    - rewrite findall_digits_digit by done. apply Hrun; [done|].
      apply IH. pose proof (drop_digits_length t). lia.
    - rewrite findall_digits_nondigit by done. apply Hskip; [done|].
      apply IH. lia. }
  by apply (H (length s)).
Qed.

Lemma filter_digits_take_drop t :
  List.filter is_digit t = take_digits t ++ List.filter is_digit (drop_digits t).
Proof.
  induction t as [|c t IH]; [done|]. simpl.
  destruct (is_digit c) eqn:Hc; simpl; [by rewrite IH | by rewrite Hc].
Qed.

(** X1.  The runs found by [findall_digits] are non-empty strings of
    digits, and put end to end they are the digits of the string in their
    order: no digit is lost, repeated or moved. *)
Theorem findall_digits_collects_digits s :
  Forall (fun r => r <> [] /\ digits r) (findall_digits s) /\
  concat (findall_digits s) = List.filter is_digit s.
Proof.
  apply (findall_digits_scan_ind
           (fun s runs => Forall (fun r => r <> [] /\ digits r) runs /\
                          concat runs = List.filter is_digit s)).
  - split; [constructor|done].
  - intros c t Hc [Hall Hcat]. split; [done|]. simpl. by rewrite Hc.
  - intros c t Hc [Hall Hcat]. split.
    + constructor; [|done]. split; [done|].
      constructor; [done|apply take_digits_digits].
    + simpl. rewrite Hc, Hcat, (filter_digits_take_drop t). done.
Qed.

Lemma digit_val_nonneg c : is_digit c = true -> 0 <= digit_val c <= 9.
Proof.
  unfold is_digit, digit_val. intros H.
  apply andb_true_iff in H as [H1 H2]. apply Nat.leb_le in H1, H2. lia.
Qed.

Lemma decimal_nonneg ds : digits ds -> 0 <= decimal ds.
Proof.
  induction 1 as [|c t Hc _ IH]; simpl; [lia|].
  pose proof (digit_val_nonneg c Hc).
  assert (0 <= 10 ^ Z.of_nat (length t)) by (apply Z.pow_nonneg; lia).
  nia.
Qed.

(** X2.  An inferred number is never negative, and unless the name begins
    with digits followed by a letter it lies in [1, 1000]. *)
Theorem extract_file_number_bounds filename n :
  extract_file_number filename = Some n ->
  0 <= n /\
  (~ LeadingDigitsThenLetter (chars filename) -> 1 <= n <= 1000).
Proof.
  unfold extract_file_number.
  destruct (search_leading (chars filename)) as [g|] eqn:E.
  - intros [= <-]. split.
    + apply search_leading_spec in E as (c & rest & _ & _ & Hd & _).
      rewrite int_decimal. by apply decimal_nonneg.
    + intros Hno. apply search_leading_None in Hno. congruence.
  - intros H. apply first_in_range_bounds in H. unfold in_file_range in H.
    split; [lia|done].
Qed.

Lemma extract_file_number_bounds_witness :
  extract_file_number "data-2024-99.csv" = Some 99 /\
  0 <= 99 /\ 1 <= 99 <= 1000.
Proof.
  split; [reflexivity|].
  destruct (extract_file_number_bounds "data-2024-99.csv" 99 eq_refl)
    as [H0 H1].
  split; [exact H0|]. apply H1. apply search_leading_None. reflexivity.
Defined.

(** X3.  A name without any digit has no inferred number. *)
Theorem extract_file_number_no_digit filename :
  Forall (fun c => is_digit c = false) (chars filename) ->
  extract_file_number filename = None.
Proof.
  intros Hno. unfold extract_file_number.
  assert (search_leading (chars filename) = None) as ->.
  { unfold search_leading. destruct (chars filename) as [|c t]; [done|].
    inversion Hno as [|? ? Hc _]; subst. simpl. by rewrite Hc. }
  revert Hno.
  apply (findall_digits_scan_ind
           (fun s runs => Forall (fun c => is_digit c = false) s ->
                          first_in_range runs = None)).
  - done.
  - intros c t _ IH Hall. apply IH. by inversion Hall.
  - intros c t Hc _ Hall. inversion Hall as [|? ? Hc' _]; subst. congruence.
Qed.

Lemma extract_file_number_no_digit_witness :
  extract_file_number "readme.csv" = None.
Proof.
  apply extract_file_number_no_digit.
  apply (bool_decide_unpack _). vm_compute. exact I.
Defined.

(** X4.  When the leading run of a name that begins with digits and a
    letter has a value in [1, 1000], the leading-digits rule and the scan
    of the digit runs give the same number: the first rule changes the
    result only for a leading value of 0 or above 1000. *)
Theorem leading_rule_agrees_with_scan filename ds c rest :
  chars filename = ds ++ c :: rest -> ds <> [] -> digits ds ->
  is_alpha c = true -> 1 <= decimal ds <= 1000 ->
  extract_file_number filename
  = first_in_range (findall_digits (chars filename)).
Proof.
  intros Hs Hne Hd Ha Hr.
  rewrite (extract_leading filename ds c rest Hs Hne Hd Ha), Hs.
  destruct ds as [|d ds']; [done|].
  inversion Hd as [|? ? Hdig Hd']; subst.
  assert (starts_nondigit (c :: rest)) as Hst.
  { intros c' q [= <- _]. by apply alpha_not_digit. }
  destruct (digit_split ds' (c :: rest) Hd' Hst) as [Ht Hdr].
  simpl app. rewrite findall_digits_digit by done. rewrite Ht, Hdr.
  cbn [first_in_range]. rewrite int_decimal.
  apply in_file_range_test in Hr. by rewrite Hr.
Qed.

Lemma leading_rule_agrees_with_scan_witness :
  extract_file_number "246a-2024.csv"
  = first_in_range (findall_digits (chars "246a-2024.csv")).
Proof.
  apply (leading_rule_agrees_with_scan "246a-2024.csv"
           (chars "246") "a"%char (chars "-2024.csv")).
  - reflexivity.
  - discriminate.
  - repeat constructor.
  - reflexivity.
  - vm_compute. split; discriminate.
Defined.

Lemma decimal_zero_padding r : decimal ("0"%char :: r) = decimal r.
Proof. cbn [decimal]. change (digit_val "0") with 0. lia. Qed.

(** X5.  Zero-padding does not change the inferred number: for a name
    that starts with a digit, putting a [0] in front of it gives the same
    result. *)
Theorem extract_file_number_zero_padding filename c t :
  chars filename = c :: t -> is_digit c = true ->
  extract_file_number (String "0" filename) = extract_file_number filename.
Proof.
  intros Hs Hc. unfold extract_file_number.
  change (chars (String "0" filename)) with ("0"%char :: chars filename).
  rewrite Hs.
  rewrite (findall_digits_digit "0" (c :: t)) by reflexivity.
  rewrite (findall_digits_digit c t) by done.
  unfold search_leading. simpl. rewrite Hc.
  assert (int ("0"%char :: c :: take_digits t) = int (c :: take_digits t)) as Hint
    by (rewrite !int_decimal; apply decimal_zero_padding).
  destruct (drop_digits t) as [|x rest] eqn:Hdrop.
  - cbn [first_in_range]. by rewrite Hint.
  - destruct (is_alpha x); [by rewrite Hint|].
    cbn [first_in_range]. by rewrite Hint.
Qed.

Lemma extract_file_number_zero_padding_witness :
  extract_file_number "07b-trips.csv" = extract_file_number "7b-trips.csv".
Proof.
  apply (extract_file_number_zero_padding "7b-trips.csv" "7"%char
           (chars "b-trips.csv")); reflexivity.
Defined.

(** ** The range filter *)

Lemma passes_iff s e fi :
  passes s e fi = true <->
  exists n, extract_file_number (filename fi) = Some n /\ n <> 0 /\ s <= n <= e.
Proof. apply selected_iff. Qed.

(** X6.  With an empty range ([end_num] below [start_num], which the
    function does not reject) nothing is kept, whatever the records. *)
Theorem filter_files_empty_range csv s e :
  e < s -> filter_files_by_range csv s e = [].
Proof.
  intros Hlt. unfold filter_files_by_range. rewrite filter_loop_survivors.
  unfold survivors.
  assert (List.filter (passes s e) csv = []) as ->; [|done].
  induction csv as [|fi rest IH]; [done|]. cbn [List.filter].
  destruct (passes s e fi) eqn:E; [|done].
  apply passes_iff in E as (n & _ & _ & Hr). lia.
Qed.

Lemma filter_files_empty_range_witness :
  filter_files_by_range [listed "246a-x.csv"; listed "300a-x.csv"] 386 246 = [].
Proof. apply filter_files_empty_range. lia. Defined.

(** X8.  The output holds each record that passes the range test once,
    with its number attached, and nothing else: it is a rearrangement of
    the passing records, so it is never longer than the input. *)
Theorem filter_files_rearranges_passing csv s e :
  Permutation (filter_files_by_range csv s e)
    (map attach (List.filter (passes s e) csv)) /\
  (length (filter_files_by_range csv s e) <= length csv)%nat.
Proof.
  assert (Permutation (filter_files_by_range csv s e)
            (map attach (List.filter (passes s e) csv))) as Hp.
  { unfold filter_files_by_range. rewrite filter_loop_survivors.
    apply sort_by_key_perm. }
  split; [done|].
  rewrite (Permutation_length Hp), length_map. apply List.filter_length_le.
Qed.

(** Filtering a sorted list and inserting commute. *)
Lemma filter_insert_by_key {A} (key : A -> Z) (p : A -> bool) x l :
  StronglySorted Z.le (map key l) ->
  List.filter p (insert_by_key key x l)
  = if p x then insert_by_key key x (List.filter p l) else List.filter p l.
Proof.
  induction l as [|y t IH]; intros Hs.
  - simpl. by destruct (p x).
  - simpl in Hs. inversion Hs as [|? ? Hs' Hall]; subst.
    cbn [insert_by_key]. destruct (key x <=? key y) eqn:E.
    + cbn [List.filter]. destruct (p x) eqn:Hx; [|done].
      destruct (p y) eqn:Hy.
      * cbn [insert_by_key]. by rewrite E.
      * apply Z.leb_le in E.
        destruct (List.filter p t) as [|z u] eqn:Hf; [done|].
        cbn [insert_by_key].
        assert (In z t) as Hz.
        { apply (proj1 (filter_In p z t)). rewrite Hf. by left. }
        rewrite List.Forall_forall in Hall.
        assert (key y <= key z) by (apply Hall, in_map_iff; by exists z).
        assert ((key x <=? key z) = true) as -> by (apply Z.leb_le; lia).
        done.
    + cbn [List.filter]. rewrite (IH Hs').
      destruct (p x) eqn:Hx; destruct (p y) eqn:Hy; try done.
      cbn [insert_by_key]. by rewrite E.
Qed.

Lemma filter_sort_by_key {A} (key : A -> Z) (p : A -> bool) l :
  List.filter p (sort_by_key key l) = sort_by_key key (List.filter p l).
Proof.
  induction l as [|x t IH]; [done|].
  cbn [sort_by_key fold_right]. fold (sort_by_key key t).
  rewrite filter_insert_by_key by apply sort_by_key_sorted.
  rewrite IH. cbn [List.filter]. by destruct (p x).
Qed.

Lemma passes_intersect s e s' e' fi :
  passes s e fi && passes s' e' fi = passes (Z.max s s') (Z.min e e') fi.
Proof.
  unfold passes, selected.
  destruct (extract_file_number (filename fi)) as [n|]; [|done].
  destruct (n =? 0); simpl; [done|].
  destruct (s <=? n) eqn:E1, (n <=? e) eqn:E2, (s' <=? n) eqn:E3,
           (n <=? e') eqn:E4, (Z.max s s' <=? n) eqn:E5,
           (n <=? Z.min e e') eqn:E6; simpl; try done;
    rewrite ?Z.leb_le, ?Z.leb_gt in *; lia.
Qed.

Lemma filter_filter_and {A} (p q : A -> bool) l :
  List.filter q (List.filter p l) = List.filter (fun x => p x && q x) l.
Proof.
  induction l as [|x t IH]; [done|]. simpl.
  destruct (p x); simpl; [|done]. destruct (q x); by rewrite IH.
Qed.

Lemma passes_attach s e fi : passes s e (attach fi) = passes s e fi.
Proof. done. Qed.

Lemma attach_attach fi : attach (attach fi) = attach fi.
Proof. done. Qed.

Lemma survivors_of_survivors csv s e s' e' :
  survivors (survivors csv s e) s' e'
  = survivors csv (Z.max s s') (Z.min e e').
Proof.
  unfold survivors.
  induction csv as [|fi rest IH]; [done|]. cbn [List.filter].
  rewrite <- (passes_intersect s e s' e' fi).
  destruct (passes s e fi) eqn:E; simpl; [|done].
  rewrite passes_attach. destruct (passes s' e' fi); simpl; [|done].
  by rewrite attach_attach, IH.
Qed.

Lemma map_attach_fixed (p : file_info -> bool) l :
  Forall (fun fi => attach fi = fi) l ->
  map attach (List.filter p l) = List.filter p l.
Proof.
  induction 1 as [|fi t Hfi _ IH]; [done|]. cbn [List.filter].
  destruct (p fi); [|done]. cbn [map]. by rewrite Hfi, IH.
Qed.

Lemma survivors_attached csv s e :
  Forall (fun fi => attach fi = fi) (survivors csv s e).
Proof.
  eapply List.Forall_impl; [|apply survivors_numbered].
  intros fi. apply attach_numbered.
Qed.

(** X9.  Filtering the output of a filter is filtering the input by the
    intersection of the two ranges. *)
Theorem filter_files_compose csv s e s' e' :
  filter_files_by_range (filter_files_by_range csv s e) s' e'
  = filter_files_by_range csv (Z.max s s') (Z.min e e').
Proof.
  unfold filter_files_by_range. rewrite !filter_loop_survivors.
  set (L := survivors csv s e).
  assert (survivors (sort_by_key sort_key L) s' e'
          = sort_by_key sort_key (survivors csv (Z.max s s') (Z.min e e')))
    as ->.
  { unfold survivors at 1.
    rewrite map_attach_fixed
      by (apply sort_by_key_Forall, survivors_attached).
    rewrite filter_sort_by_key. f_equal.
    rewrite <- (map_attach_fixed (passes s' e') L)
      by apply survivors_attached.
    apply survivors_of_survivors. }
  apply sort_by_key_sorted_id, sort_by_key_sorted.
Qed.

(** ** Records built by the link loop *)

Lemma final_segment_suffix sep s seg : FinalSegment sep s seg -> EndsWith s seg.
Proof.
  intros [_ [->|(pre & ->)]].
  - by exists [].
  - exists (pre ++ [sep]). by rewrite <- app_assoc.
Qed.

(** The last segment of a string that ends with [.csv] ends with [.csv]. *)
Lemma final_segment_csv s seg :
  FinalSegment slash s seg -> EndsWith s dot_csv -> EndsWith seg dot_csv.
Proof.
  intros [Hno [->|(pre & ->)]] (pre' & Heq); [by exists pre'|].
  change (pre ++ slash :: seg) with (pre ++ [slash] ++ seg) in Heq.
  rewrite app_assoc in Heq.
  apply app_eq_app in Heq as (l & [[Hl Hcsv]|[Hl Hseg]]).
  - destruct (list_eq_nil_dec l) as [->|Hne].
    + exists []. by rewrite Hcsv.
    + exfalso. destruct (exists_last Hne) as (l' & x & ->).
      rewrite app_assoc in Hl. apply app_inj_tail in Hl as [_ <-].
      assert (In slash dot_csv) as Hin.
      { rewrite Hcsv. apply in_or_app. left. apply in_or_app. right. by left. }
      vm_compute in Hin. intuition discriminate.
  - exists l. done.
Qed.

Lemma link_step_csv_record link :
  Forall csv_record (link_step [] link).
Proof.
  unfold link_step.
  destruct (get_attribute_href link) as [|href]; [by constructor|].
  destruct (element_text link) as [|t]; [by constructor|].
  destruct href as [h|]; [|by constructor].
  destruct (negb (h =? "")%string && endswith (chars h) dot_csv) eqn:E;
    [|by constructor].
  apply andb_true_iff in E as [_ E]. apply endswith_spec in E.
  pose proof (last_segment slash (chars h)) as Hseg.
  constructor; [|constructor]. unfold csv_record. simpl.
  rewrite chars_str. split; [|split; [|split]].
  - by eapply final_segment_csv.
  - apply Hseg.
  - by apply final_segment_suffix in Hseg.
  - done.
Qed.

Lemma extract_links_builds_csv_records_aux links :
  Forall csv_record (extract_links links).
Proof.
  induction links as [|l links IH]; [constructor|].
  rewrite extract_links_cons. apply List.Forall_app. split; [|done].
  apply link_step_csv_record.
Qed.

(** X10.  Whatever the anchors, every record the link loop builds has a
    file name that ends with [.csv] and holds no [/], a url that ends with
    that file name, and no number attached; the loop builds at most one
    record per link. *)
Theorem extract_links_builds_csv_records links :
  Forall csv_record (extract_links links) /\
  (length (extract_links links) <= length links)%nat.
Proof.
  split; [apply extract_links_builds_csv_records_aux|].
  induction links as [|l links IH]; [done|].
  rewrite extract_links_cons, length_app. cbn [length].
  assert (length (link_step [] l) <= 1)%nat; [|lia].
  unfold link_step. repeat case_match; simpl; lia.
Qed.

Lemma os_path_join_relative a p :
  ~ In slash (chars p) ->
  os_path_join a p
  = if String.eqb a "" || endswith (chars a) [slash]
    then (a +:+ p)%string else (a +:+ "/" +:+ p)%string.
Proof.
  intros Hno. unfold os_path_join.
  destruct (chars p) as [|c rest]; [done|].
  assert (c <> slash) as Hc by (intros ->; apply Hno; by left).
  destruct c as [[] [] [] [] [] [] [] []]; done.
Qed.

(** X11.  The download target of a record built by the link loop lies
    under the download directory: [os.path.join] never drops the
    directory for such a file name, and with the default directory the
    target is [cycling_data/] followed by the file name. *)
Theorem extracted_record_target links fi d :
  In fi (extract_links links) ->
  (os_path_join d (filename fi) = (d +:+ filename fi)%string \/
   os_path_join d (filename fi) = (d +:+ "/" +:+ filename fi)%string) /\
  os_path_join default_download_dir (filename fi)
  = ("cycling_data/" +:+ filename fi)%string.
Proof.
  intros Hin.
  pose proof (extract_links_builds_csv_records_aux links) as Hall.
  rewrite List.Forall_forall in Hall.
  destruct (Hall fi Hin) as (_ & Hno & _). split.
  - rewrite (os_path_join_relative d _ Hno).
    destruct (String.eqb d "" || endswith (chars d) [slash]); auto.
  - by rewrite (os_path_join_relative default_download_dir _ Hno).
Qed.

Lemma extracted_record_target_witness :
  os_path_join default_download_dir "246a.csv" = "cycling_data/246a.csv"%string.
Proof.
  apply (extracted_record_target
           [anchor (Some "https://cycling.data.tfl.gov.uk/usage-stats/246a.csv") ""]
           (FileInfo "246a.csv"
              "https://cycling.data.tfl.gov.uk/usage-stats/246a.csv" "" None)
           "").
  left. reflexivity.
Defined.

(** X12.  A link whose href or text cannot be read is skipped and the
    loop goes on: the result is that of the links before it followed by
    that of the links after it, even when the href that could be read
    ends with [.csv]. *)
Theorem extract_links_skips_unreadable before bad after :
  (exists e, get_attribute_href bad = inl e) \/
  (exists e, element_text bad = inl e) ->
  extract_links (before ++ bad :: after)
  = extract_links before ++ extract_links after.
Proof.
  intros Hbad. rewrite extract_links_app, extract_links_cons.
  assert (link_step [] bad = []) as ->; [|done].
  unfold link_step. destruct Hbad as [(e & ->)|(e & ->)]; [done|].
  by destruct (get_attribute_href bad).
Qed.

Lemma extract_links_skips_unreadable_witness :
  extract_links
    [anchor (Some "https://cycling.data.tfl.gov.uk/246a.csv") "a";
     WebElement (inr (Some "https://cycling.data.tfl.gov.uk/247a.csv"%string))
       (inl WebDriverException);
     anchor (Some "https://cycling.data.tfl.gov.uk/248a.csv") "c"]
  = extract_links [anchor (Some "https://cycling.data.tfl.gov.uk/246a.csv") "a"]
    ++ extract_links [anchor (Some "https://cycling.data.tfl.gov.uk/248a.csv") "c"].
Proof.
  apply (extract_links_skips_unreadable
           [anchor (Some "https://cycling.data.tfl.gov.uk/246a.csv") "a"]).
  right. by exists WebDriverException.
Defined.

(** ** One download *)






(** Everything one call may change. *)
Ltac effect_side :=
  match goal with
  | |- _ ⊆ <[_ := _]> _ => apply insert_subseteq; by apply not_elem_of_dom
  | |- forall q, q <> _ -> _ => intros ? ?; simpl; first [done | by apply lookup_insert_ne]
  | |- _ = true -> _ => intros _; split; [set_solver|];
        first [ by left | by right
              | left; apply elem_of_dom; rewrite lookup_insert_eq; by eexists
              | right; set_solver ]
  | |- _ = true -> _ => by intros [=]
  | |- _ \/ _ => first [by left | by right]
  | |- _ => first [done | set_solver]
  end.

Ltac effect_case :=
  do 2 eexists; split; [done|]; simpl; split_and!; effect_side.

Lemma download_file_effect fi d w :
  exists b w',
    download_file fi d w = (Returned b, w') /\
    (files w ⊆ files w') /\
    (forall q, q <> os_path_join d (filename fi) ->
               files w' !! q = files w !! q) /\
    (dirs w ⊆ dirs w') /\ (dirs w' ⊆ {[d]} ∪ dirs w) /\
    (requests w' = requests w \/ requests w' = requests w ++ [(url fi, 30)]) /\
    server w' = server w /\ can_create w' = can_create w /\
    slept w' = slept w /\
    (b = true -> target_exists w' d (filename fi)).
Proof.
  set (p := os_path_join d (filename fi)).
  unfold target_exists. fold p. run_download. fold p.
  destruct (bool_decide (d ∈ dirs w)) eqn:Ed; simpl.
  - apply bool_decide_eq_true in Ed.
    destruct (bool_decide (p ∈ dom (files w))) eqn:Ef; simpl.
    { apply bool_decide_eq_true in Ef. effect_case. }
    destruct (bool_decide (p ∈ dirs w)) eqn:Ep; simpl.
    { apply bool_decide_eq_true in Ep. effect_case. }
    apply bool_decide_eq_false in Ef.
    destruct (server w (url fi)) as [e|resp]; simpl.
    { effect_case. }
    destruct (status_code resp =? 200); simpl.
    + rewrite Ep, (bool_decide_eq_false_2 _ Ef). simpl.
      destruct (can_create w p); simpl; effect_case.
    + effect_case.
  - destruct (bool_decide (d ∈ dom (files w)) || negb (can_create w d)); simpl.
    { effect_case. }
    destruct (bool_decide (p ∈ dom (files w))) eqn:Ef; simpl.
    { apply bool_decide_eq_true in Ef. effect_case. }
    destruct (bool_decide (p ∈ {[d]} ∪ dirs w)) eqn:Ep; simpl.
    { apply bool_decide_eq_true in Ep. effect_case. }
    apply bool_decide_eq_false in Ef.
    destruct (server w (url fi)) as [e|resp]; simpl.
    { effect_case. }
    destruct (status_code resp =? 200); simpl.
    + rewrite Ep, (bool_decide_eq_false_2 _ Ef). simpl.
      destruct (can_create w p); simpl; effect_case.
    + effect_case.
Qed.

(** X15.  One call of [download_file] ends by returning a boolean,
    never removes or changes a file that exists, touches no path but its
    own target, removes no directory, and sends at most the one request
    for the record's url with a timeout of 30. *)
Theorem download_file_frame fi d w :
  exists b w',
    download_file fi d w = (Returned b, w') /\
    (files w ⊆ files w') /\
    (forall q, q <> os_path_join d (filename fi) ->
               files w' !! q = files w !! q) /\
    (dirs w ⊆ dirs w') /\
    (requests w' = requests w \/ requests w' = requests w ++ [(url fi, 30)]).
Proof.
  destruct (download_file_effect fi d w)
    as (b & w' & Hrun & Hf & Hq & Hd & _ & Hr & _).
  exists b, w'. done.
Qed.

Lemma target_exists_skip fi d w :
  target_exists w d (filename fi) ->
  download_file fi d w
  = (Returned true, log_line (AlreadyExists (filename fi)) w).
Proof.
  intros [Hd Hp]. run_download.
  rewrite (bool_decide_eq_true_2 _ Hd). simpl.
  destruct Hp as [Hp|Hp].
  - by rewrite (bool_decide_eq_true_2 _ Hp).
  - rewrite (bool_decide_eq_true_2 _ Hp). by rewrite orb_true_r.
Qed.

(** X16.  A download that returned [True] is not repeated: a second call
    for the same record and directory finds the target, prints the
    already-exists line and returns [True] without a request and without
    touching a file. *)
Theorem download_file_again_skips fi d w w' :
  download_file fi d w = (Returned true, w') ->
  download_file fi d w'
  = (Returned true, log_line (AlreadyExists (filename fi)) w').
Proof.
  intros Hrun.
  destruct (download_file_effect fi d w)
    as (b & w1 & Hrun1 & _ & _ & _ & _ & _ & _ & _ & _ & Hex).
  rewrite Hrun in Hrun1. injection Hrun1 as <- <-.
  apply target_exists_skip. by apply Hex.
Qed.

Lemma download_file_again_skips_witness :
  download_file (listed "246a.csv") "cycling_data"
    (snd (download_file (listed "246a.csv") "cycling_data" world_without_file))
  = (Returned true,
     log_line (AlreadyExists (filename (listed "246a.csv")))
       (snd (download_file (listed "246a.csv") "cycling_data"
               world_without_file))).
Proof.
  apply (download_file_again_skips (listed "246a.csv") "cycling_data"
           world_without_file).
  reflexivity.
Defined.

(** ** The download loop of [main] *)

Lemma target_exists_mono w w' d name :
  files w ⊆ files w' -> dirs w ⊆ dirs w' ->
  target_exists w d name -> target_exists w' d name.
Proof.
  intros Hf Hd [Hdir Hp]. split; [set_solver|].
  destruct Hp as [Hp|Hp]; [left|right; set_solver].
  apply elem_of_dom in Hp as [data Hp]. apply elem_of_dom. exists data.
  by eapply lookup_weaken.
Qed.

Lemma download_loop_step fi rest i n s f w :
  exists b w1,
    download_file fi default_download_dir (log_line (Progress i n) w)
    = (Returned b, w1) /\
    download_loop (fi :: rest) i n s f w
    = download_loop rest (S i) n (if b then s + 1 else s)
        (if b then f else f + 1) (add_slept 1 w1).
Proof.
  destruct (download_file_effect fi default_download_dir
              (log_line (Progress i n) w)) as (b & w1 & Hrun & _).
  exists b, w1. split; [done|].
  cbn [download_loop]. unfold bind at 1. unfold print at 1.
  unfold bind at 1. rewrite Hrun. unfold bind, time_sleep. by destruct b.
Qed.

Lemma download_loop_effect todo : forall i n s f w,
  exists s' f' w',
    download_loop todo i n s f w = (Returned (s', f'), w') /\
    s <= s' /\ f <= f' /\
    (s' - s) + (f' - f) = Z.of_nat (length todo) /\
    slept w' = slept w + Z.of_nat (length todo) /\
    (files w ⊆ files w') /\ (dirs w ⊆ dirs w') /\
    (exists rs, requests w' = requests w ++ rs /\
                rs `sublist_of` map (fun fi => (url fi, 30)) todo) /\
    (f' = f ->
     Forall (fun fi => target_exists w' default_download_dir (filename fi)) todo).
Proof.
  induction todo as [|fi rest IH]; intros i n s f w.
  - exists s, f, w. split; [done|]. simpl.
    do 4 (split; [lia|]). do 2 (split; [done|]). split.
    + exists nil. rewrite app_nil_r. split; [done|constructor].
    + intros _. constructor.
  - destruct (download_loop_step fi rest i n s f w) as (b & w1 & Hrun & ->).
    destruct (download_file_effect fi default_download_dir
                (log_line (Progress i n) w))
      as (b' & w1' & Hrun' & Hf & _ & Hd & _ & Hr & _ & _ & Hsl & Hex).
    rewrite Hrun in Hrun'. injection Hrun' as <- <-.
    destruct (IH (S i) n (if b then s + 1 else s) (if b then f else f + 1)
                (add_slept 1 w1))
      as (s' & f' & w' & Hloop & Hs & Hfl & Hsum & Hslept & Hf' & Hd' & Hrs & Hall).
    exists s', f', w'. split; [done|]. simpl in *.
    split; [|split; [|split; [|split; [|split; [|split; [|split]]]]]].
    + destruct b; lia.
    + destruct b; lia.
    + destruct b; lia.
    + lia.
    + by etrans.
    + by etrans.
    + destruct Hrs as (rs & Hreq & Hsub).
      destruct Hr as [Hr|Hr]; rewrite Hr in Hreq.
      * exists rs. split; [done|]. by apply sublist_cons.
      * exists ((url fi, 30) :: rs). split.
        -- by rewrite Hreq, <- app_assoc.
        -- by apply sublist_skip.
    + intros ->. destruct b; [|lia]. constructor; [|by apply Hall].
      apply (target_exists_mono w1 w'); [done|done|by apply Hex].
Qed.

(** X17.  The loop ends normally whatever the downloads do and accounts
    for every file exactly once: the two counters it returns are
    non-negative and add up to the number of files, and it sleeps one
    second per file. *)
Theorem download_all_counts filtered_files w :
  exists successful failed w',
    download_all filtered_files w = (Returned (successful, failed), w') /\
    0 <= successful /\ 0 <= failed /\
    successful + failed = Z.of_nat (length filtered_files) /\
    slept w' = slept w + Z.of_nat (length filtered_files).
Proof.
  destruct (download_loop_effect filtered_files 1 (length filtered_files) 0 0 w)
    as (s' & f' & w' & Hrun & Hs & Hf & Hsum & Hsl & _).
  exists s', f', w'. split; [done|]. repeat split; lia.
Qed.

(** X18.  The loop sends its requests in the order of the list it is
    given, at most one per file, each for the file's url with a timeout of
    30; it never removes or changes an existing file or directory. *)
Theorem download_all_requests_in_order filtered_files w :
  exists rs,
    requests (snd (download_all filtered_files w)) = requests w ++ rs /\
    rs `sublist_of` map (fun fi => (url fi, 30)) filtered_files /\
    (files w ⊆ files (snd (download_all filtered_files w))) /\
    (dirs w ⊆ dirs (snd (download_all filtered_files w))).
Proof.
  destruct (download_loop_effect filtered_files 1 (length filtered_files) 0 0 w)
    as (s' & f' & w' & Hrun & _ & _ & _ & _ & Hf & Hd & (rs & Hreq & Hsub) & _).
  unfold download_all. rewrite Hrun. simpl. exists rs. done.
Qed.

Lemma download_loop_all_exist todo : forall i n s f w,
  Forall (fun fi => target_exists w default_download_dir (filename fi)) todo ->
  exists w',
    download_loop todo i n s f w
    = (Returned (s + Z.of_nat (length todo), f), w') /\
    requests w' = requests w /\ files w' = files w /\ dirs w' = dirs w.
Proof.
  induction todo as [|fi rest IH]; intros i n s f w Hall.
  - exists w. simpl. unfold ret. by rewrite Z.add_0_r.
  - inversion Hall as [|? ? Hfi Hrest]; subst.
    destruct (download_loop_step fi rest i n s f w) as (b & w1 & Hrun & ->).
    rewrite target_exists_skip in Hrun by done.
    injection Hrun as <- <-.
    destruct (IH (S i) n (s + 1) f
                (add_slept 1 (log_line (AlreadyExists (filename fi))
                                (log_line (Progress i n) w))))
      as (w' & Hloop & Hr & Hf & Hd); [done|].
    exists w'. rewrite Hloop. split; [|done].
    replace (s + Z.of_nat (length (fi :: rest)))
      with (s + 1 + Z.of_nat (length rest)) by (cbn [length]; lia).
    done.
Qed.

(** X19.  When every file of the list already exists in the download
    directory, the loop counts all of them as successful and none as
    failed, sends no request and leaves files and directories as they
    are. *)
Theorem download_all_nothing_to_do filtered_files w :
  Forall (fun fi => target_exists w default_download_dir (filename fi))
    filtered_files ->
  exists w',
    download_all filtered_files w
    = (Returned (Z.of_nat (length filtered_files), 0), w') /\
    requests w' = requests w /\ files w' = files w /\ dirs w' = dirs w.
Proof.
  intros Hall.
  destruct (download_loop_all_exist filtered_files 1 (length filtered_files)
              0 0 w Hall) as (w' & Hrun & H).
  exists w'. split; [|done]. unfold download_all. by rewrite Hrun.
Qed.

Lemma download_all_nothing_to_do_witness :
  exists w',
    download_all [listed "246a.csv"; listed "246a.csv"] world_with_file
    = (Returned (2, 0), w') /\
    requests w' = [] /\ files w' = files world_with_file /\
    dirs w' = dirs world_with_file.
Proof.
  apply (download_all_nothing_to_do [listed "246a.csv"; listed "246a.csv"]
           world_with_file).
  assert (target_exists world_with_file default_download_dir "246a.csv") as H.
  { split; [|left]; apply (bool_decide_unpack _); vm_compute; exact I. }
  repeat constructor; exact H.
Defined.

(** X20.  Running the loop again after a run without failures downloads
    nothing: every file is found, the counters are the same, no request is
    sent and no file is touched. *)
Theorem download_all_rerun filtered_files w w' successful :
  download_all filtered_files w = (Returned (successful, 0), w') ->
  exists w'',
    download_all filtered_files w'
    = (Returned (Z.of_nat (length filtered_files), 0), w'') /\
    successful = Z.of_nat (length filtered_files) /\
    requests w'' = requests w' /\ files w'' = files w'.
Proof.
  intros Hrun.
  destruct (download_loop_effect filtered_files 1 (length filtered_files) 0 0 w)
    as (s' & f' & w1 & Hrun1 & _ & _ & Hsum & _ & _ & _ & _ & Hall).
  unfold download_all in Hrun. rewrite Hrun in Hrun1.
  injection Hrun1 as <- <- <-.
  destruct (download_loop_all_exist filtered_files 1 (length filtered_files)
              0 0 w' (Hall eq_refl)) as (w'' & Hrun2 & Hr & Hf & _).
  exists w''. unfold download_all. rewrite Hrun2.
  split; [done|]. split; [lia|done].
Qed.

Lemma download_all_rerun_witness :
  exists w'',
    download_all [listed "246a.csv"; listed "247a.csv"]
      (snd (download_all [listed "246a.csv"; listed "247a.csv"] world_without_file))
    = (Returned (2, 0), w'') /\
    requests w''
    = requests (snd (download_all [listed "246a.csv"; listed "247a.csv"]
                       world_without_file)).
Proof.
  destruct (download_all_rerun [listed "246a.csv"; listed "247a.csv"]
              world_without_file
              (snd (download_all [listed "246a.csv"; listed "247a.csv"]
                      world_without_file)) 2)
    as (w'' & Hrun & _ & Hreq & _).
  - vm_compute. reflexivity.
  - exists w''. split; [exact Hrun|exact Hreq].
Defined.

(** ** The page renderer *)

Ltac run_scraper :=
  unfold Scraper.get_all_filenames, Scraper.setup_driver, Scraper.try_finally,
    Scraper.try_except, Scraper.bind, Scraper.ret, Scraper.print,
    Scraper.webdriver_Chrome, Scraper.execute_script, Scraper.driver_get,
    Scraper.wait_until_anchor, Scraper.sleep, Scraper.find_anchors,
    Scraper.driver_quit, Scraper.of_outcome; simpl.

(** X21.  [get_all_filenames] calls [quit] exactly once when
    [setup_driver] hands it a driver, whether the scraping succeeds or
    raises, and never otherwise; when Chrome starts and the script that
    follows raises, the browser has been started and is not quit. *)
Theorem get_all_filenames_quits_once u b :
  (driver_obtained b ->
   quit_calls (snd (Scraper.get_all_filenames u b)) = S (quit_calls b)) /\
  (~ driver_obtained b ->
   quit_calls (snd (Scraper.get_all_filenames u b)) = quit_calls b /\
   fst (Scraper.get_all_filenames u b) = Returned []) /\
  (forall e, (exists v, chrome_start b = inr v) -> script_run b = inl e ->
   launched (snd (Scraper.get_all_filenames u b))
   = launched b ++ [Scraper.the_chrome_options] /\
   quit_calls (snd (Scraper.get_all_filenames u b)) = quit_calls b).
Proof.
  unfold driver_obtained. run_scraper.
  destruct (chrome_start b) as [e0|[]] eqn:Ec; simpl.
  - split; [by intros [[? [=]] _]|]. split; [done|]. by intros e [? [=]].
  - destruct (script_run b) as [e1|[]] eqn:Es; simpl.
    + split; [by intros [_ [? [=]]]|]. split; [done|]. done.
    + split; [|split; [intros H; destruct H; eauto | by intros e _ [=]]].
      intros _.
      destruct (page_get b u) as [e|[]]; simpl;
        [by destruct (quit_result b)|].
      destruct (wait_anchor b 60) as [e|[]]; simpl;
        [by destruct (quit_result b)|].
      destruct (page_links b) as [e|links]; simpl;
        by destruct (quit_result b).
Qed.

Lemma get_all_filenames_quits_once_witness :
  quit_calls (snd (Scraper.get_all_filenames Scraper.default_url
                     browser_times_out)) = 1%nat.
Proof.
  apply (proj1 (get_all_filenames_quits_once Scraper.default_url
                  browser_times_out)).
  split; by exists tt.
Defined.

(** X22.  Only [quit] can make [get_all_filenames] raise: when [quit]
    returns, the result is the empty list if no driver was obtained or if
    loading the page, waiting for an anchor or listing the anchors raised,
    and otherwise the records of the link loop on the anchors of the page;
    when a driver was obtained and [quit] raises, that exception comes
    out. *)
Theorem get_all_filenames_result u b :
  ((exists v, quit_result b = inr v) ->
   fst (Scraper.get_all_filenames u b)
   = Returned (get_all_filenames (page_of b u))) /\
  (forall e, quit_result b = inl e -> driver_obtained b ->
   fst (Scraper.get_all_filenames u b) = Raised e).
Proof.
  unfold driver_obtained, page_of, get_all_filenames. run_scraper.
  destruct (chrome_start b) as [e0|[]] eqn:Ec; simpl.
  - split; [done|]. by intros e _ [[? [=]] _].
  - destruct (script_run b) as [e1|[]] eqn:Es; simpl.
    + split; [done|]. by intros e _ [_ [? [=]]].
    + destruct (page_get b u) as [e|[]]; simpl.
      { destruct (quit_result b) as [eq|[]]; simpl;
          split; try done; try (by intros [? [=]]). by intros e' [= ->]. }
      destruct (wait_anchor b 60) as [e|[]]; simpl.
      { destruct (quit_result b) as [eq|[]]; simpl;
          split; try done; try (by intros [? [=]]). by intros e' [= ->]. }
      destruct (page_links b) as [e|links]; simpl;
        destruct (quit_result b) as [eq|[]]; simpl;
          split; try done; try (by intros [? [=]]); by intros e' [= ->].
Qed.

Lemma get_all_filenames_result_witness :
  fst (Scraper.get_all_filenames Scraper.default_url
         (browser_ok [anchor (Some "https://cycling.data.tfl.gov.uk/246a.csv") "x"]))
  = Returned [FileInfo "246a.csv" "https://cycling.data.tfl.gov.uk/246a.csv" "x" None].
Proof.
  apply (proj1 (get_all_filenames_result Scraper.default_url
                  (browser_ok [anchor (Some "https://cycling.data.tfl.gov.uk/246a.csv") "x"]))).
  by exists tt.
Defined.

(** ** The orchestrator *)

Ltac run_main :=
  unfold Main.main, Main.bind, Main.ret, Main.print, Main.print_all,
    Main.input, Main.int_or, Main.in_browser, Main.in_world; simpl.

Lemma scraper_raises_from_quit u b e :
  fst (Scraper.get_all_filenames u b) = Raised e -> quit_result b = inl e.
Proof.
  run_scraper.
  destruct (chrome_start b) as [e0|[]]; simpl; [done|].
  destruct (script_run b) as [e1|[]]; simpl; [done|].
  destruct (page_get b u) as [e2|[]]; simpl.
  { destruct (quit_result b) as [eq|[]]; simpl; [by intros [= ->]|done]. }
  destruct (wait_anchor b 60) as [e3|[]]; simpl.
  { destruct (quit_result b) as [eq|[]]; simpl; [by intros [= ->]|done]. }
  destruct (page_links b) as [e4|links]; simpl;
    (destruct (quit_result b) as [eq|[]]; simpl; [by intros [= ->]|done]).
Qed.

(** The two ways [main] can go: it stops before the download loop, or it
    runs the loop on the filtered records. *)
Lemma main_cases s :
  (world (snd (Main.main s)) = world s /\
   (forall e, fst (Main.main s) = Crashed e ->
      e = EOFError \/ (exists l, e = ValueError l) \/
      (exists x, e = Uncaught x /\ quit_result (browser s) = inl x)) /\
   (confirmed s ->
      fst (Main.main s) <> Done tt \/
      fst (Scraper.get_all_filenames Scraper.default_url (browser s)) = Returned [] \/
      exists csv a b rest start_range end_range,
        fst (Scraper.get_all_filenames Scraper.default_url (browser s))
        = Returned csv /\
        stdin s = a :: b :: rest /\
        py_int (answer_or a "246") = Some start_range /\
        py_int (answer_or b "386") = Some end_range /\
        filter_files_by_range csv start_range end_range = [])) \/
  (exists csv a b c rest start_range end_range counts w',
     fst (Scraper.get_all_filenames Scraper.default_url (browser s))
     = Returned csv /\
     stdin s = a :: b :: c :: rest /\
     py_int (answer_or a "246") = Some start_range /\
     py_int (answer_or b "386") = Some end_range /\
     says_yes c /\
     download_all (filter_files_by_range csv start_range end_range) (world s)
     = (Returned counts, w') /\
     fst (Main.main s) = Done tt /\
     world (snd (Main.main s)) = w' /\
     stdin (snd (Main.main s)) = rest).
Proof.
  unfold confirmed, says_yes, answer_or. run_main.
  destruct (Scraper.get_all_filenames Scraper.default_url (browser s))
    as [[csv|e] b'] eqn:Hscrape; simpl.
  2:{ left. split; [done|]. split; [|intros _; by left].
      intros e' [= <-]. right. right. exists e. split; [done|].
      apply (scraper_raises_from_quit Scraper.default_url).
      by rewrite Hscrape. }
  destruct csv as [|fi0 csv0]; simpl.
  { left. split; [done|]. split; [done|]. intros _. right. by left. }
  set (csv := fi0 :: csv0) in *.
  destruct (stdin s) as [|a rest1] eqn:Hin; simpl.
  { left. split; [done|]. split; [intros e [= <-]; by left|].
    by intros (? & ? & ? & ? & [=] & _). }
  destruct (py_int (if (a =? "")%string then "246"%string else a))
    as [start_range|] eqn:Ha; simpl.
  2:{ left. split; [done|]. split; [intros e [= <-]; right; left; by eexists|].
      intros _. by left. }
  destruct rest1 as [|b rest2]; simpl.
  { left. split; [done|]. split; [intros e [= <-]; by left|].
    by intros (? & ? & ? & ? & [=] & _). }
  destruct (py_int (if (b =? "")%string then "386"%string else b))
    as [end_range|] eqn:Hb; simpl.
  2:{ left. split; [done|]. split; [intros e [= <-]; right; left; by eexists|].
      intros _. by left. }
  destruct (filter_files_by_range csv start_range end_range)
    as [|f0 filtered0] eqn:Hfilter; simpl.
  { left. split; [done|]. split; [done|]. intros _. right. right.
    exists csv, a, b, rest2, start_range, end_range. done. }
  destruct rest2 as [|c rest3]; simpl.
  { left. split; [done|]. split; [intros e [= <-]; by left|].
    by intros (? & ? & ? & ? & [=] & _). }
  destruct (str (strip (lower (chars c))) =? "y")%string eqn:Hyes; simpl.
  2:{ left. split; [done|]. split; [done|].
      intros (a1 & b1 & c1 & r1 & [= <- <- <- <-] & Hy).
      apply String.eqb_neq in Hyes. done. }
  apply String.eqb_eq in Hyes.
  destruct (download_loop_effect (f0 :: filtered0) 1
              (length (f0 :: filtered0)) 0 0 (world s))
    as (sN & fN & w' & Hloop & _).
  fold (download_all (f0 :: filtered0)) in Hloop.
  rewrite Hloop. simpl. right.
  exists csv, a, b, c, rest3, start_range, end_range, (sN, fN), w'.
  rewrite Hfilter. done.
Qed.

(** X23.  [main] downloads only after a yes: unless three lines are
    waiting on standard input and the third, lowercased and stripped, is
    [y], the world of the downloader (files, directories, requests sent)
    is after [main] what it was before. *)
Theorem main_downloads_only_after_yes s :
  ~ confirmed s -> world (snd (Main.main s)) = world s.
Proof.
  intros Hno. destruct (main_cases s) as [[Hw _]|Hrun]; [done|].
  destruct Hrun as (csv & a & b & c & rest & s1 & e1 & counts & w' & _ & Hin
                    & _ & _ & Hyes & _).
  exfalso. apply Hno. by exists a, b, c, rest.
Qed.

Lemma main_downloads_only_after_yes_witness :
  world (snd (Main.main (session_with_answers [""; ""; "no"]%string)))
  = world_without_file.
Proof.
  apply (main_downloads_only_after_yes
           (session_with_answers [""; ""; "no"]%string)).
  intros (a & b & c & rest & Hin & Hyes). simpl in Hin.
  injection Hin as <- <- <- <-. vm_compute in Hyes. discriminate Hyes.
Defined.

(** X24.  The requests [main] sends are requests for urls of the records
    that [filter_files_by_range] returns for the scraped records and the
    two range answers, in the order of that output and at most one per
    record, each with a timeout of 30. *)
Theorem main_requests_follow_filter s :
  exists rs,
    requests (world (snd (Main.main s))) = requests (world s) ++ rs /\
    (rs = [] \/
     exists csv a b rest start_range end_range,
       fst (Scraper.get_all_filenames Scraper.default_url (browser s))
       = Returned csv /\
       stdin s = a :: b :: rest /\
       py_int (answer_or a "246") = Some start_range /\
       py_int (answer_or b "386") = Some end_range /\
       rs `sublist_of`
         map (fun fi => (url fi, 30))
           (filter_files_by_range csv start_range end_range)).
Proof.
  destruct (main_cases s) as [[Hw _]|Hrun].
  - exists nil. rewrite Hw, app_nil_r. split; [done|by left].
  - destruct Hrun as (csv & a & b & c & rest & s1 & e1 & counts & w' & Hcsv
                      & Hin & Ha & Hb & _ & Hloop & _ & Hw & _).
    destruct (download_loop_effect (filter_files_by_range csv s1 e1) 1
                (length (filter_files_by_range csv s1 e1)) 0 0 (world s))
      as (sN & fN & w1 & Hrun & _ & _ & _ & _ & _ & _ & (rs & Hreq & Hsub) & _).
    unfold download_all in Hloop. rewrite Hloop in Hrun.
    injection Hrun as _ <-.
    exists rs. rewrite Hw. split; [done|]. right.
    exists csv, a, b, (c :: rest), s1, e1. done.
Qed.

(** X25.  [main] can only fail before the first download: if it ends
    with an exception, the world of the downloader is untouched, and the
    exception is the end of standard input at a prompt, a range answer
    that is not an integer, or the exception that [quit] raised. *)
Theorem main_fails_before_downloading s e :
  fst (Main.main s) = Crashed e ->
  world (snd (Main.main s)) = world s /\
  (e = EOFError \/ (exists l, e = ValueError l) \/
   (exists x, e = Uncaught x /\ quit_result (browser s) = inl x)).
Proof.
  intros Hcrash. destruct (main_cases s) as [(Hw & Hexn & _)|Hrun].
  - split; [done|]. by apply Hexn.
  - destruct Hrun as (? & ? & ? & ? & ? & ? & ? & ? & ? & _ & _ & _ & _ & _
                      & _ & Hdone & _).
    congruence.
Qed.

Lemma main_fails_before_downloading_witness :
  world (snd (Main.main (session_with_answers ["246"; "x"; "y"]%string)))
  = world_without_file.
Proof.
  apply (main_fails_before_downloading
           (session_with_answers ["246"; "x"; "y"]%string)
           (ValueError "x")).
  vm_compute. reflexivity.
Defined.

(** X26.  Empty answers to the two range prompts select the default
    range: [main] then ends, prints, drives the browser and downloads as
    it does when [246] and [386] are typed. *)
Theorem main_default_range s rest :
  let typed := Main.main (with_stdin ("246"%string :: "386"%string :: rest) s) in
  let empty := Main.main (with_stdin (""%string :: ""%string :: rest) s) in
  fst empty = fst typed /\
  world (snd empty) = world (snd typed) /\
  terminal (snd empty) = terminal (snd typed) /\
  browser (snd empty) = browser (snd typed).
Proof.
  unfold with_stdin. run_main.
  destruct (Scraper.get_all_filenames Scraper.default_url (browser s))
    as [[csv|e] b']; simpl; [|done].
  destruct csv as [|fi0 csv0]; [done|].
  change (py_int "246") with (Some 246).
  change (py_int "386") with (Some 386).
  simpl. done.
Qed.
